(** * ProjectTwo.cpp: the ABCU advising assistant

    A shallow embedding of the course catalog of [ProjectTwo.cpp]: the
    normalizer [toUpperTrim], the binary search tree [CourseBST], the loader
    [loadCourses] and the detail printer [printCourseInfo], together with the
    properties of the specification that concern them.

    Conventions.
    - A [std::string] is a [string]: a finite sequence of 8-bit characters.
      [operator<] on [std::string] compares characters as unsigned bytes,
      lexicographically, which is [String.ltb]; [operator==] is [String.eqb].
    - A [Node*] is a value of the inductive type [Node]; [nullptr] is
      [nullNode].  The tree is never shared, so updating through a
      [Node*&] is returning the updated tree.
    - What a function writes to [cout] is the [string] it returns; [endl]
      is the newline character.
    - An input stream ([ifstream], [stringstream], [cin]) is the [string] of
      the characters that remain to be read. *)

From Stdlib Require Import Ascii String List Bool Arith NArith Lia.
From Stdlib Require Import Permutation Sorted.
From Equations.Prop Require Import Equations Logic.
Import ListNotations.

Open Scope string_scope.

(** ** The part of the C++ standard library that the program uses *)

Module Std.

(** [string::npos] is [None]; a position is a [nat]. *)
Definition npos : option nat := None.

(** Is [c] one of the characters of [chars]? *)
Fixpoint mem (c : ascii) (chars : string) : bool :=
  match chars with
  | EmptyString => false
  | String d chars' => Ascii.eqb c d || mem c chars'
  end.

(** [s.find_first_not_of(chars)]: the lowest position whose character is
    not in [chars]. *)
Fixpoint find_first_not_of (s chars : string) : option nat :=
  match s with
  | EmptyString => npos
  | String c s' =>
      if mem c chars then option_map S (find_first_not_of s' chars)
      else Some 0
  end.

(** [s.find_last_not_of(chars)]: the highest position whose character is
    not in [chars]. *)
Fixpoint find_last_not_of (s chars : string) : option nat :=
  match s with
  | EmptyString => npos
  | String c s' =>
      match find_last_not_of s' chars with
      | Some j => Some (S j)
      | None => if mem c chars then npos else Some 0
      end
  end.

(** [s.substr(pos, n)], for [pos <= s.size()]. *)
Definition substr (s : string) (pos n : nat) : string := substring pos n s.

(** [toupper] of [<cctype>] in the "C" locale, which is the locale of a
    program that never calls [setlocale]: the bytes 0x61..0x7A go to
    0x41..0x5A, every other byte is returned as it is. *)
Definition toupper (c : ascii) : ascii :=
  let n := N_of_ascii c in
  if ((97 <=? n) && (n <=? 122))%N then ascii_of_N (n - 32) else c.

(** [endl], as the character it writes. *)
Definition endl : string := String "010"%char EmptyString.

(** The extraction of [getline(input, str, delim)]: characters are moved to
    [str] until [delim] is met (and consumed) or the stream ends. *)
Fixpoint read_until (delim : ascii) (input : string) : string * string :=
  match input with
  | EmptyString => (EmptyString, EmptyString)
  | String c input' =>
      if Ascii.eqb c delim then (EmptyString, input')
      else let (str, rest) := read_until delim input' in (String c str, rest)
  end.

(** [getline(input, str, delim)] converted to [bool]: on a stream that is
    at its end nothing is extracted and the stream fails ([None]);
    otherwise the result is the extracted [str] and the stream after it. *)
Definition getline (input : string) (delim : ascii) : option (string * string) :=
  match input with
  | EmptyString => None
  | String _ _ => Some (read_until delim input)
  end.

End Std.

(** ** toUpperTrim *)

(** The set [" \t\r\n"]. *)
Definition whitespace : string :=
  String " "%char (String "009"%char (String "013"%char (String "010"%char EmptyString))).

(** The loop [for (auto& c : trimmed) c = toupper(c)]. *)
Fixpoint upcase (s : string) : string :=
  match s with
  | EmptyString => EmptyString
  | String c s' => String (Std.toupper c) (upcase s')
  end.

Definition toUpperTrim (str : string) : string :=
  let start := Std.find_first_not_of str whitespace in
  let end_ := Std.find_last_not_of str whitespace in
  let trimmed :=
    match start, end_ with
    | Some start, Some end_ => Std.substr str start (end_ - start + 1)
    | _, _ => EmptyString
    end in
  upcase trimmed.

(** The normalizer as the specification words it: remove the leading and the
    trailing characters of the set, then map every byte to upper case. *)
Module NormalizeSpec.

Definition is_space (c : ascii) : bool :=
  Ascii.eqb c " " || Ascii.eqb c "009" || Ascii.eqb c "013" || Ascii.eqb c "010".

Fixpoint drop_while (p : ascii -> bool) (l : list ascii) : list ascii :=
  match l with
  | [] => []
  | c :: l' => if p c then drop_while p l' else l
  end.

Definition strip (l : list ascii) : list ascii :=
  rev (drop_while is_space (rev (drop_while is_space l))).

Definition normalize (s : string) : string :=
  string_of_list_ascii (map Std.toupper (strip (list_ascii_of_string s))).

End NormalizeSpec.

(** ** Course, Node and CourseBST *)

Record Course : Type := mkCourse {
  courseNumber : string;
  courseName : string;
  prerequisites : list string
}.

(** [Course::printCourseBasic]: the line it writes. *)
Definition printCourseBasic (c : Course) : string :=
  courseNumber c ++ ", " ++ courseName c ++ Std.endl.

Inductive Node : Type :=
| nullNode : Node
| mkNode (course : Course) (l r : Node) : Node.

Fixpoint addNode (node : Node) (course : Course) : Node :=
  match node with
  | nullNode => mkNode course nullNode nullNode
  | mkNode c l r =>
      if courseNumber course <? courseNumber c
      then mkNode c (addNode l course) r
      else mkNode c l (addNode r course)
  end.

(** [inOrder], as what it writes. *)
Fixpoint inOrder (node : Node) : string :=
  match node with
  | nullNode => EmptyString
  | mkNode c l r => inOrder l ++ printCourseBasic c ++ inOrder r
  end.

(** The courses in the order in which [inOrder] visits them: the
    enumeration of the catalog. *)
Fixpoint inOrderCourses (node : Node) : list Course :=
  match node with
  | nullNode => []
  | mkNode c l r => inOrderCourses l ++ c :: inOrderCourses r
  end.

(** A [Course*] is an [option Course]. *)
Fixpoint searchNode (node : Node) (number : string) : option Course :=
  match node with
  | nullNode => None
  | mkNode c l r =>
      if courseNumber c =? number then Some c
      else if number <? courseNumber c then searchNode l number
      else searchNode r number
  end.

Record CourseBST : Type := mkBST { root : Node }.

(** The constructor [CourseBST()]. *)
Definition newBST : CourseBST := mkBST nullNode.

Definition insert (bst : CourseBST) (course : Course) : CourseBST :=
  mkBST (addNode (root bst) course).

Definition printAll (bst : CourseBST) : string := inOrder (root bst).

Definition search (bst : CourseBST) (number : string) : option Course :=
  searchNode (root bst) number.

(** The enumeration of a catalog, and the catalog that a sequence of
    insertions into an empty one produces. *)
Definition enumerate (bst : CourseBST) : list Course := inOrderCourses (root bst).

Definition insertAll (bst : CourseBST) (courses : list Course) : CourseBST :=
  fold_left insert courses bst.

(** ** loadCourses *)

Lemma read_until_shorter delim input str rest :
  Std.read_until delim input = (str, rest) -> String.length rest <= String.length input.
Proof.
  revert str rest. induction input as [|c input IH]; simpl; intros str rest H.
  - inversion H; subst. simpl. lia.
  - destruct (Ascii.eqb c delim).
    + inversion H; subst. lia.
    + destruct (Std.read_until delim input) as [str' rest'] eqn:E.
      inversion H; subst. specialize (IH _ _ eq_refl). lia.
Qed.

Lemma getline_shorter input delim str rest :
  Std.getline input delim = Some (str, rest) -> String.length rest < String.length input.
Proof.
  destruct input as [|c input]; simpl; [discriminate|].
  destruct (Ascii.eqb c delim).
  - intros H; inversion H; subst. lia.
  - destruct (Std.read_until delim input) as [str' rest'] eqn:E.
    intros H; inversion H; subst. apply read_until_shorter in E. lia.
Qed.

(** The loop [while (getline(ss, token, ',')) tokens.push_back(token)]. *)
Equations? splitLoop (ss : string) (tokens : list string) : list string
  by wf (String.length ss) lt :=
  splitLoop ss tokens with Logic.inspect (Std.getline ss ",") => {
    | exist _ (Some (token, ss')) Hget := splitLoop ss' (tokens ++ [token]);
    | exist _ None Hend := tokens }.
Proof. eapply getline_shorter; eassumption. Qed.

(** The loop [for (size_t i = 2; i < tokens.size(); ++i)] that fills
    [course.prerequisites]; [tokens[i]] is read inside the bounds. *)
Equations? prereqLoop (tokens : list string) (i : nat) (prereqs : list string)
  : list string by wf (List.length tokens - i) lt :=
  prereqLoop tokens i prereqs with lt_dec i (List.length tokens) => {
    | left _ := prereqLoop tokens (S i) (prereqs ++ [toUpperTrim (nth i tokens EmptyString)]);
    | right _ := prereqs }.
Proof. lia. Qed.

(** The body of the loop over the lines of the file, one line; [continue]
    leaves the catalog as it is. *)
Definition loadLine (line : string) (bst : CourseBST) (cout : string)
  : CourseBST * string :=
  if line =? EmptyString then (bst, cout)
  else
    let tokens := splitLoop line [] in
    if (List.length tokens <? 2)%nat then
      (bst, cout ++ "WARNING: Invalid course line (skipped): " ++ line ++ Std.endl)
    else
      let course :=
        mkCourse (toUpperTrim (nth 0 tokens EmptyString))
                 (nth 1 tokens EmptyString)
                 (prereqLoop tokens 2 []) in
      (insert bst course, cout).

(** The loop [while (getline(file, line))]. *)
Equations? loadLoop (file : string) (bst : CourseBST) (cout : string)
  : CourseBST * string by wf (String.length file) lt :=
  loadLoop file bst cout with Logic.inspect (Std.getline file "010") => {
    | exist _ (Some (line, file')) Hget :=
        loadLoop file' (fst (loadLine line bst cout)) (snd (loadLine line bst cout));
    | exist _ None Hend := (bst, cout) }.
Proof. eapply getline_shorter; eassumption. Qed.

(** The files that can be opened, by name, with their contents:
    [ifstream file(filename)] followed by [file.is_open()]. *)
Definition FileSystem : Type := string -> option string.

Definition loadCourses (fs : FileSystem) (filename : string) (bst : CourseBST)
  : CourseBST * string :=
  match fs filename with
  | None => (bst, "ERROR: Could not open file: " ++ filename ++ Std.endl)
  | Some file =>
      let cout := "Loading courses from " ++ filename ++ "..." ++ Std.endl in
      let (bst', cout') := loadLoop file bst cout in
      (bst', cout' ++ "Courses loaded into data structure." ++ Std.endl)
  end.

(** ** printCourseInfo *)

(** The loop [for (const auto& prereqID : course->prerequisites)], with
    what has been written so far and the flag [firstPrinted]. *)
Fixpoint printPrereqs (bst : CourseBST) (prereqs : list string)
  (cout : string) (firstPrinted : bool) : string :=
  match prereqs with
  | [] => cout
  | prereqID :: prereqs' =>
      let cout := if firstPrinted then cout ++ ", " else cout in
      let cout :=
        match search bst prereqID with
        | Some prereqCourse =>
            cout ++ courseNumber prereqCourse ++ ": " ++ courseName prereqCourse
        | None => cout ++ prereqID ++ ": None Required"
        end in
      printPrereqs bst prereqs' cout true
  end.

Definition prompt : string := "What course do you want to know about? ".

(** [printCourseInfo] reads one line of [cin]; the result is what it wrote
    and what remains of [cin].  When [cin] is at its end [getline] leaves
    [userInput] empty. *)
Definition printCourseInfo (bst : CourseBST) (cin : string) : string * string :=
  let cout := prompt in
  let (userInput, cin') :=
    match Std.getline cin "010" with
    | Some (userInput, cin') => (userInput, cin')
    | None => (EmptyString, cin)
    end in
  let courseKey := toUpperTrim userInput in
  match search bst courseKey with
  | None => (cout ++ "Course not found." ++ Std.endl, cin')
  | Some course =>
      let cout := cout ++ courseNumber course ++ ", " ++ courseName course ++ Std.endl in
      match prerequisites course with
      | _ :: _ =>
          let cout := cout ++ "Prerequisites: " in
          let cout := printPrereqs bst (prerequisites course) cout false in
          (cout ++ Std.endl, cin')
      | [] => (cout ++ "Prerequisites: None" ++ Std.endl, cin')
      end
  end.

(** ** The loader and the detail printer as the specification words them *)

Module LoaderSpec.

(** Splitting on a delimiter: the pieces between the delimiters, so that
    a text with [n] delimiters has [n + 1] pieces. *)
Fixpoint split (delim : ascii) (s : string) : list string :=
  match s with
  | EmptyString => [EmptyString]
  | String c s' =>
      if Ascii.eqb c delim then EmptyString :: split delim s'
      else match split delim s' with
           | piece :: pieces => String c piece :: pieces
           | [] => [String c EmptyString]
           end
  end.

Definition lines (file : string) : list string := split "010" file.

Definition fields (line : string) : list string := split "," line.

(** A sequence of pieces without its last piece when that one is empty. *)
Definition drop_empty_end (pieces : list string) : list string :=
  if last pieces EmptyString =? EmptyString then removelast pieces else pieces.

(** For comparison with the code, the tokens that its loop of [getline]
    makes of a line: the fields, but for an empty piece after a last comma,
    for which the loop extracts nothing. *)
Definition fields_read (line : string) : list string :=
  drop_empty_end (fields line).

(** The course of a record: field 0 normalized, field 1 as it is, the
    fields from 2 on normalized, in their order. *)
Definition course_of (fs : list string) : Course :=
  mkCourse (NormalizeSpec.normalize (nth 0 fs EmptyString))
           (nth 1 fs EmptyString)
           (map NormalizeSpec.normalize (skipn 2 fs)).

(** What the loader does with one line, given how a line is cut into
    fields: the catalog, and the lines warned about so far. *)
Definition load_line (cut : string -> list string)
  (st : CourseBST * list string) (line : string) : CourseBST * list string :=
  if line =? EmptyString then st
  else if (List.length (cut line) <? 2)%nat then (fst st, (snd st ++ [line])%list)
  else (insert (fst st) (course_of (cut line)), snd st).

Definition load (cut : string -> list string) (file : string) (bst : CourseBST)
  : CourseBST * list string :=
  fold_left (load_line cut) (lines file) (bst, []).

Definition warning (line : string) : string :=
  "WARNING: Invalid course line (skipped): " ++ line ++ Std.endl.

End LoaderSpec.

Module DetailSpec.

Definition not_found : string := "Course not found." ++ Std.endl.

(** One prerequisite: with its title when the catalog has it, and as a
    dangling reference otherwise. *)
Definition entry (bst : CourseBST) (p : string) : string :=
  match search bst p with
  | Some c => courseNumber c ++ ": " ++ courseName c
  | None => p ++ ": None Required"
  end.

Definition prerequisites_line (bst : CourseBST) (ps : list string) : string :=
  match ps with
  | [] => "Prerequisites: None"
  | _ => "Prerequisites: " ++ String.concat ", " (map (entry bst) ps)
  end.

Definition render (bst : CourseBST) (query : string) : string :=
  match search bst (NormalizeSpec.normalize query) with
  | None => not_found
  | Some c =>
      courseNumber c ++ ", " ++ courseName c ++ Std.endl
      ++ prerequisites_line bst (prerequisites c) ++ Std.endl
  end.

End DetailSpec.

(** ** Predicates on identifiers and on catalogs *)

Definition is_lower (c : ascii) : bool :=
  ((97 <=? N_of_ascii c) && (N_of_ascii c <=? 122))%N.

Fixpoint has_lower (s : string) : bool :=
  match s with
  | EmptyString => false
  | String c s' => is_lower c || has_lower s'
  end.

Definition starts_with_space (s : string) : bool :=
  match s with
  | EmptyString => false
  | String c _ => NormalizeSpec.is_space c
  end.

Fixpoint ends_with_space (s : string) : bool :=
  match s with
  | EmptyString => false
  | String c EmptyString => NormalizeSpec.is_space c
  | String _ s' => ends_with_space s'
  end.

(** Some character of [s] is not in the whitespace set. *)
Fixpoint has_content (s : string) : bool :=
  match s with
  | EmptyString => false
  | String c s' => negb (NormalizeSpec.is_space c) || has_content s'
  end.

(** An identifier is normalized when [toUpperTrim] leaves it as it is. *)
Definition normalized (s : string) : Prop := toUpperTrim s = s.

(** The strict and the large order of [operator<] on identifiers. *)
Definition str_lt (a b : string) : Prop := (a <? b) = true.
Definition str_le (a b : string) : Prop := (b <? a) = false.

(** The search tree invariant that [addNode] maintains: smaller identifiers
    on the left, the others (equal ones too) on the right. *)
Fixpoint ordered (node : Node) : Prop :=
  match node with
  | nullNode => True
  | mkNode c l r =>
      Forall (fun x => str_lt (courseNumber x) (courseNumber c)) (inOrderCourses l)
      /\ Forall (fun x => str_le (courseNumber c) (courseNumber x)) (inOrderCourses r)
      /\ ordered l /\ ordered r
  end.

(** Trailing whitespace removed, by recursion on the text. *)
Fixpoint rstrip (l : list ascii) : list ascii :=
  match l with
  | [] => []
  | c :: l' =>
      match rstrip l' with
      | [] => if NormalizeSpec.is_space c then [] else [c]
      | r => c :: r
      end
  end.

(** ** The menu of [main]: the blocks of its [switch] *)

(** The variables of [main] that the blocks of the menu share. *)
Record MainState : Type := mkMain {
  bst_of : CourseBST;
  loaded : bool
}.

(** [CourseBST bst; bool loaded = false;] *)
Definition initialMain : MainState := mkMain newBST false.

Definition correctBase : string := "CS 300 ABCU_Advising_Program_Input".
Definition correctBaseCaps : string := "CS 300 ABCU_ADVISING_PROGRAM_INPUT".

(** The double quote that the error message of [case 1] has around the
    expected name. *)
Definition dquote : string := String "034"%char EmptyString.

(** [s.substr(pos)]: the characters from [pos] to the end, for
    [pos <= s.size()]. *)
Definition substr_from (s : string) (pos : nat) : string :=
  Std.substr s pos (String.length s - pos).

(** STEP 1 of [case 1]: the name in capitals, without a final [".CSV"]. *)
Definition stripCsv (inputCaps : string) : string :=
  if (4 <=? String.length inputCaps)%nat
     && (substr_from inputCaps (String.length inputCaps - 4) =? ".CSV")
  then Std.substr inputCaps 0 (String.length inputCaps - 4)
  else inputCaps.

(** [case 1] after [getline(cin, inputName)]: the state and what is
    written after the prompt of the file name. *)
Definition loadByName (fs : FileSystem) (inputName : string) (st : MainState)
  : MainState * string :=
  let inputCaps := stripCsv (upcase inputName) in
  if inputCaps =? correctBaseCaps then
    let finalFilename := correctBase ++ ".csv" in
    let cout := "Using file: " ++ finalFilename ++ Std.endl in
    let (bst', cout') := loadCourses fs finalFilename (bst_of st) in
    (mkMain bst' true, cout ++ cout')
  else
    (st,
     "ERROR: The file name does not match " ++ dquote ++ correctBase ++ dquote
     ++ " (ignoring case)." ++ Std.endl
     ++ "Please re-check your spelling and try again." ++ Std.endl).

(** [case 1]: the prompt, the line read from [cin] (empty when [cin] is at
    its end), and the block above.  The result is the state, what was
    written, and what remains of [cin]. *)
Definition mainCase1 (fs : FileSystem) (st : MainState) (cin : string)
  : MainState * string * string :=
  let cout := "Enter the file name to load (case-insensitive, with or without .csv): " in
  let (inputName, cin') :=
    match Std.getline cin "010" with
    | Some (inputName, cin') => (inputName, cin')
    | None => (EmptyString, cin)
    end in
  let (st', cout') := loadByName fs inputName st in
  (st', cout ++ cout', cin').

(** [case 2]: what is written. *)
Definition mainCase2 (st : MainState) : string :=
  if negb (loaded st) then
    "Please load courses before printing the list." ++ Std.endl
  else
    "Here is the course schedule:" ++ Std.endl ++ Std.endl
    ++ printAll (bst_of st) ++ Std.endl.

(** [case 3]: what is written, and what remains of [cin]. *)
Definition mainCase3 (st : MainState) (cin : string) : string * string :=
  if negb (loaded st) then
    ("Please load courses before searching for a course." ++ Std.endl, cin)
  else
    let (cout, cin') := printCourseInfo (bst_of st) cin in
    (cout ++ Std.endl, cin').

(** The states of [main]: the first one, and the one after [case 1], on any
    files and any input; the other choices of the menu change neither the
    catalog nor [loaded]. *)
Inductive reachable : MainState -> Prop :=
| reach_initial : reachable initialMain
| reach_case1 (fs : FileSystem) (st : MainState) (cin : string) :
    reachable st -> reachable (fst (fst (mainCase1 fs st cin))).

(** The number of nodes on the longest path from the root down. *)
Fixpoint height (node : Node) : nat :=
  match node with
  | nullNode => 0
  | mkNode _ l r => S (Nat.max (height l) (height r))
  end.

(** A tree in which no node has a left child. *)
Fixpoint right_spine (node : Node) : Prop :=
  match node with
  | nullNode => True
  | mkNode _ l r => l = nullNode /\ right_spine r
  end.

(** The records of a file: the courses of the lines that the loader
    accepts, in the order of the file. *)
Definition accepted (line : string) : bool :=
  negb (line =? EmptyString)
  && (2 <=? List.length (LoaderSpec.fields_read line))%nat.

Definition records (file : string) : list Course :=
  map (fun line => LoaderSpec.course_of (LoaderSpec.fields_read line))
      (filter accepted (LoaderSpec.lines file)).

(** Is the last character of [s] the character [d]? *)
Fixpoint ends_with (d : ascii) (s : string) : bool :=
  match s with
  | EmptyString => false
  | String c EmptyString => Ascii.eqb c d
  | String _ s' => ends_with d s'
  end.

(** Is [d] absent from [s]? *)
Definition free_of (d : ascii) (s : string) : Prop := Std.mem d s = false.

(** ** Auxiliary definitions of the proofs *)

(** The text between the two positions that [toUpperTrim] computes. *)
Definition trimmed (str : string) : string :=
  match Std.find_first_not_of str whitespace, Std.find_last_not_of str whitespace with
  | Some start, Some end_ => Std.substr str start (end_ - start + 1)
  | _, _ => EmptyString
  end.

(** Does [c] have the number [k]? *)
Definition has_number (k : string) (c : Course) : bool := courseNumber c =? k.

(** Writing the texts of a sequence one after the other. *)
Definition written (texts : list string) : string := String.concat EmptyString texts.

(** The strings that successive calls of [getline] extract from a stream,
    by recursion on the stream. *)
Fixpoint extracted (delim : ascii) (s : string) : list string :=
  match s with
  | EmptyString => []%list
  | String c s' =>
      if Ascii.eqb c delim then EmptyString :: extracted delim s'
      else match extracted delim s' with
           | []%list => [String c EmptyString]%list
           | (t :: ts)%list => (String c t :: ts)%list
           end
  end.

(** Two records with the same number, as a file with a repeated line for
    one course gives them. *)
Definition firstRecord : Course := mkCourse "CSCI100" "Introduction to Computer Science" [].
Definition laterRecord : Course := mkCourse "CSCI100" "Computer Science I" [].

(** The file of scenario S6 of the specification, with a line of three
    prerequisite fields added. *)
Definition sampleFile : string :=
  Std.endl ++ "CSCI100,Introduction to Computer Science" ++ Std.endl
  ++ "BADLINE" ++ Std.endl
  ++ "CSCI200,Data Structures" ++ Std.endl
  ++ " csci300 ,Intro to  Algorithms, csci200,math201 " ++ Std.endl.

(** * Properties *)

(** ** The positions that the standard library finds *)

Section Positions.

(** [find_first_not_of] returns the lowest position of a character outside
    the set, and [npos] when there is none. *)
Lemma find_first_not_of_spec s chars :
  match Std.find_first_not_of s chars with
  | Some i =>
      (exists c, String.get i s = Some c /\ Std.mem c chars = false)
      /\ forall j c, j < i -> String.get j s = Some c -> Std.mem c chars = true
  | None => forall j c, String.get j s = Some c -> Std.mem c chars = true
  end.
Proof.
  induction s as [|d s IH]; cbn [Std.find_first_not_of]; [intros j c; discriminate|].
  destruct (Std.mem d chars) eqn:Hd.
  - destruct (Std.find_first_not_of s chars) as [i|]; cbn [option_map].
    + destruct IH as [Hi Hbelow]. split; [exact Hi|].
      intros [|j] c Hj; simpl; [intros H; now inversion H; subst|].
      apply Hbelow. lia.
    + intros [|j] c; simpl; [intros H; now inversion H; subst|apply IH].
  - split; [exists d; now split|]. intros j c Hj. lia.
Qed.

(** [find_last_not_of] returns the highest such position. *)
Lemma find_last_not_of_spec s chars :
  match Std.find_last_not_of s chars with
  | Some i =>
      (exists c, String.get i s = Some c /\ Std.mem c chars = false)
      /\ forall j c, i < j -> String.get j s = Some c -> Std.mem c chars = true
  | None => forall j c, String.get j s = Some c -> Std.mem c chars = true
  end.
Proof.
  induction s as [|d s IH]; cbn [Std.find_last_not_of]; [intros j c; discriminate|].
  destruct (Std.find_last_not_of s chars) as [i|].
  - destruct IH as [Hi Habove]. split; [exact Hi|].
    intros [|j] c Hj; [lia|]. simpl. apply Habove. lia.
  - destruct (Std.mem d chars) eqn:Hd.
    + intros [|j] c; simpl; [intros H; now inversion H; subst|apply IH].
    + split; [exists d; now split|].
      intros [|j] c Hj; [lia|]. simpl. apply IH.
Qed.

(** The length [end - start + 1] that [toUpperTrim] passes to [substr] is
    computed without wrapping around: [start] is not above [end]. *)
Lemma first_le_last s chars i j :
  Std.find_first_not_of s chars = Some i ->
  Std.find_last_not_of s chars = Some j ->
  i <= j.
Proof.
  intros Hi Hj.
  pose proof (find_first_not_of_spec s chars) as Hf. rewrite Hi in Hf.
  pose proof (find_last_not_of_spec s chars) as Hl. rewrite Hj in Hl.
  destruct Hf as [_ Hbelow]. destruct Hl as [(c & Hc & Hout) _].
  destruct (Nat.le_gt_cases i j) as [|Hlt]; [assumption|].
  specialize (Hbelow j c Hlt Hc). congruence.
Qed.

End Positions.

(** ** The normalizer *)

Section Normalizer.

Import NormalizeSpec.
Local Open Scope list_scope.

Lemma mem_whitespace c : Std.mem c whitespace = is_space c.
Proof.
  unfold whitespace, is_space; simpl. now rewrite orb_false_r, !orb_assoc.
Qed.

Lemma rstrip_snoc l c :
  rstrip (l ++ [c]) = if is_space c then rstrip l else l ++ [c].
Proof.
  induction l as [|d l IH]; simpl.
  - now destruct (is_space c).
  - rewrite IH. destruct (is_space c).
    + reflexivity.
    + destruct l; reflexivity.
Qed.

Lemma rstrip_rev l : rstrip l = rev (drop_while is_space (rev l)).
Proof.
  rewrite <- (rev_involutive l) at 1.
  induction (rev l) as [|c k IH]; simpl.
  - reflexivity.
  - rewrite rstrip_snoc. destruct (is_space c); [exact IH | reflexivity].
Qed.

Lemma strip_rstrip l : strip l = rstrip (drop_while is_space l).
Proof. unfold strip. now rewrite rstrip_rev. Qed.

(** What [find_last_not_of] and [substr] keep is the text without its
    trailing whitespace. *)
Lemma last_not_of_rstrip s :
  list_ascii_of_string
    match Std.find_last_not_of s whitespace with
    | Some j => Std.substr s 0 (S j)
    | None => EmptyString
    end
  = rstrip (list_ascii_of_string s).
Proof.
  induction s as [|c s IH]; [reflexivity|].
  cbn [Std.find_last_not_of list_ascii_of_string rstrip].
  rewrite <- IH, mem_whitespace.
  destruct (Std.find_last_not_of s whitespace) as [j|] eqn:F; simpl.
  - destruct s as [|d s]; [discriminate F|reflexivity].
  - destruct (is_space c); [reflexivity|].
    unfold Std.substr. destruct s; reflexivity.
Qed.

Lemma list_ascii_of_upcase s :
  list_ascii_of_string (upcase s) = map Std.toupper (list_ascii_of_string s).
Proof. induction s; simpl; congruence. Qed.

Lemma trimmed_strip s :
  list_ascii_of_string (trimmed s) = strip (list_ascii_of_string s).
Proof.
  rewrite strip_rstrip. unfold trimmed.
  induction s as [|c s IH]; [reflexivity|].
  cbn [Std.find_first_not_of Std.find_last_not_of list_ascii_of_string drop_while].
  rewrite mem_whitespace. destruct (is_space c) eqn:Hc.
  - rewrite <- IH.
    destruct (Std.find_first_not_of s whitespace) as [i|]; simpl; [|reflexivity].
    destruct (Std.find_last_not_of s whitespace) as [j|]; reflexivity.
  - change (c :: list_ascii_of_string s) with (list_ascii_of_string (String c s)).
    rewrite <- (last_not_of_rstrip (String c s)).
    cbn [Std.find_last_not_of].
    rewrite mem_whitespace, Hc.
    destruct (Std.find_last_not_of s whitespace) as [j|]; simpl.
    + unfold Std.substr. simpl. now rewrite Nat.add_1_r.
    + reflexivity.
Qed.

Lemma toUpperTrim_normalize s : toUpperTrim s = normalize s.
Proof.
  unfold normalize. rewrite <- trimmed_strip, <- list_ascii_of_upcase.
  now rewrite string_of_list_ascii_of_string.
Qed.

(** [toupper] on the codes of the bytes. *)
Lemma toupper_code c :
  N_of_ascii (Std.toupper c) =
  (if (97 <=? N_of_ascii c) && (N_of_ascii c <=? 122)
   then N_of_ascii c - 32 else N_of_ascii c)%N.
Proof. destruct c as [[] [] [] [] [] [] [] []]; reflexivity. Qed.

Lemma toupper_idem c : Std.toupper (Std.toupper c) = Std.toupper c.
Proof. destruct c as [[] [] [] [] [] [] [] []]; reflexivity. Qed.

Lemma toupper_space c : is_space (Std.toupper c) = is_space c.
Proof. destruct c as [[] [] [] [] [] [] [] []]; reflexivity. Qed.

Lemma toupper_fixed c : Std.toupper c = c -> is_lower c = false.
Proof. destruct c as [[] [] [] [] [] [] [] []]; (reflexivity || discriminate). Qed.

Lemma first_not_of_content s :
  Std.find_first_not_of s whitespace = None <-> has_content s = false.
Proof.
  induction s as [|c s IH]; [easy|].
  cbn [Std.find_first_not_of has_content]. rewrite mem_whitespace.
  destruct (is_space c); simpl; [|easy].
  rewrite <- IH. destruct (Std.find_first_not_of s whitespace); easy.
Qed.

Lemma toUpperTrim_blank s : has_content s = false -> toUpperTrim s = EmptyString.
Proof.
  intros H. apply first_not_of_content in H. unfold toUpperTrim. now rewrite H.
Qed.

Lemma rstrip_nil l : rstrip l = [] -> drop_while is_space l = [].
Proof.
  induction l as [|c l IH]; simpl; [reflexivity|].
  destruct (rstrip l); [|discriminate].
  destruct (is_space c); [intros _; now apply IH|discriminate].
Qed.

Lemma drop_while_nil s :
  drop_while is_space (list_ascii_of_string s) = [] -> has_content s = false.
Proof.
  induction s as [|c s IH]; simpl; [reflexivity|].
  destruct (is_space c); [exact IH|discriminate].
Qed.

Lemma drop_while_map l :
  drop_while is_space (map Std.toupper l) = map Std.toupper (drop_while is_space l).
Proof.
  induction l as [|c l IH]; simpl; [reflexivity|].
  rewrite toupper_space. now destruct (is_space c).
Qed.

Lemma drop_while_idem l :
  drop_while is_space (drop_while is_space l) = drop_while is_space l.
Proof.
  induction l as [|c l IH]; simpl; [reflexivity|].
  destruct (is_space c) eqn:E; [exact IH|]. simpl. now rewrite E.
Qed.

Lemma rstrip_map l : rstrip (map Std.toupper l) = map Std.toupper (rstrip l).
Proof.
  induction l as [|c l IH]; simpl; [reflexivity|].
  rewrite IH, toupper_space.
  destruct (rstrip l); simpl; [now destruct (is_space c)|reflexivity].
Qed.

Lemma rstrip_idem l : rstrip (rstrip l) = rstrip l.
Proof.
  rewrite !rstrip_rev, rev_involutive. now rewrite drop_while_idem.
Qed.

Lemma drop_while_rstrip l :
  drop_while is_space l = l -> drop_while is_space (rstrip l) = rstrip l.
Proof.
  destruct l as [|c l]; simpl; [reflexivity|].
  destruct (is_space c) eqn:E.
  - intros H. apply (f_equal (@List.length ascii)) in H. simpl in H.
    assert (forall k, List.length (drop_while is_space k) <= List.length k) as Hle.
    { induction k as [|d k IHk]; simpl; [lia|]. destruct (is_space d); simpl; lia. }
    specialize (Hle l). lia.
  - intros _. destruct (rstrip l); simpl; now rewrite E.
Qed.

(** A text with a character that is not whitespace has a normal form that
    is not empty. *)
Lemma toUpperTrim_content s : has_content s = true -> toUpperTrim s <> EmptyString.
Proof.
  intros Hs H. rewrite toUpperTrim_normalize in H. unfold normalize in H.
  apply (f_equal list_ascii_of_string) in H.
  rewrite list_ascii_of_string_of_list_ascii in H. simpl in H.
  apply map_eq_nil in H. rewrite strip_rstrip in H.
  apply rstrip_nil in H. rewrite drop_while_idem in H.
  apply drop_while_nil in H. congruence.
Qed.

Lemma strip_idem l : strip (strip l) = strip l.
Proof.
  rewrite !strip_rstrip.
  rewrite (drop_while_rstrip (drop_while is_space l)) by apply drop_while_idem.
  apply rstrip_idem.
Qed.

Lemma strip_map l : strip (map Std.toupper l) = map Std.toupper (strip l).
Proof. rewrite !strip_rstrip. now rewrite drop_while_map, rstrip_map. Qed.

(** Normalizing twice is normalizing once: what [toUpperTrim] returns is
    normalized. *)
Lemma toUpperTrim_idem s : toUpperTrim (toUpperTrim s) = toUpperTrim s.
Proof.
  rewrite !toUpperTrim_normalize. unfold normalize.
  rewrite list_ascii_of_string_of_list_ascii, strip_map, strip_idem.
  rewrite map_map. f_equal. apply map_ext. intros c. apply toupper_idem.
Qed.

Lemma toUpperTrim_normalized s : normalized (toUpperTrim s).
Proof. apply toUpperTrim_idem. Qed.

Lemma drop_while_length l : List.length (drop_while is_space l) <= List.length l.
Proof.
  induction l as [|c l IH]; simpl; [lia|]. destruct (is_space c); simpl; lia.
Qed.

Lemma rstrip_length l : List.length (rstrip l) <= List.length l.
Proof.
  induction l as [|c l IH]; simpl; [lia|].
  destruct (rstrip l); [destruct (is_space c)|]; simpl in *; lia.
Qed.

Lemma drop_while_full s :
  List.length (drop_while is_space (list_ascii_of_string s))
  = List.length (list_ascii_of_string s) ->
  starts_with_space s = false.
Proof.
  destruct s as [|c s]; simpl; [reflexivity|].
  destruct (is_space c); [|reflexivity].
  intros H. pose proof (drop_while_length (list_ascii_of_string s)). lia.
Qed.

Lemma rstrip_full s :
  List.length (rstrip (list_ascii_of_string s))
  = List.length (list_ascii_of_string s) ->
  ends_with_space s = false.
Proof.
  induction s as [|c s IH]; [reflexivity|].
  cbn [list_ascii_of_string rstrip ends_with_space].
  pose proof (rstrip_length (list_ascii_of_string s)) as Hle.
  destruct s as [|d s].
  - simpl. destruct (is_space c); [discriminate|reflexivity].
  - destruct (rstrip (list_ascii_of_string (String d s))) eqn:E.
    + destruct (is_space c); simpl; lia.
    + intros H. apply IH. simpl in H. simpl. lia.
Qed.

Lemma upcase_fixed l : map Std.toupper (list_ascii_of_string l) = list_ascii_of_string l ->
  has_lower l = false.
Proof.
  induction l as [|c l IH]; simpl; [reflexivity|].
  intros H. injection H as Hc Hl. now rewrite (toupper_fixed c Hc), IH.
Qed.

(** A normalized identifier has no lowercase letter and no whitespace at
    either end. *)
Lemma normalized_shape s :
  normalized s ->
  has_lower s = false /\ starts_with_space s = false /\ ends_with_space s = false.
Proof.
  unfold normalized. rewrite toUpperTrim_normalize. unfold normalize. intros H.
  apply (f_equal list_ascii_of_string) in H.
  rewrite list_ascii_of_string_of_list_ascii in H.
  set (l := list_ascii_of_string s) in *.
  assert (List.length (strip l) = List.length l) as Hlen
    by (rewrite <- H at 2; now rewrite length_map).
  rewrite strip_rstrip in Hlen.
  pose proof (rstrip_length (drop_while is_space l)) as H1.
  pose proof (drop_while_length l) as H2.
  assert (starts_with_space s = false) as Hs by (apply drop_while_full; fold l; lia).
  assert (drop_while is_space l = l) as Hd.
  { subst l. destruct s as [|c s]; [reflexivity|]. simpl in Hs |- *. now rewrite Hs. }
  rewrite Hd in Hlen.
  assert (ends_with_space s = false) as He by (now apply rstrip_full).
  repeat split; trivial.
  apply upcase_fixed. fold l. rewrite <- H at 2. f_equal.
  rewrite strip_rstrip, Hd.
  clear -Hlen. revert Hlen. generalize l. clear l.
  induction l as [|c l IH]; simpl; [reflexivity|].
  pose proof (rstrip_length l) as Hle.
  destruct (rstrip l) eqn:E.
  - destruct (is_space c); simpl; [lia|]. intros Hl. destruct l; [reflexivity|simpl in Hl; lia].
  - intros Hl. f_equal. apply IH. simpl in Hl |- *. lia.
Qed.

End Normalizer.

(** ** The order of identifiers *)

Section IdentifierOrder.

Lemma ascii_compare_refl c : Ascii.compare c c = Eq.
Proof. apply N.compare_refl. Qed.

Lemma ascii_compare_lt_trans x y z :
  Ascii.compare x y = Lt -> Ascii.compare y z = Lt -> Ascii.compare x z = Lt.
Proof. unfold Ascii.compare. rewrite !N.compare_lt_iff. apply N.lt_trans. Qed.

Lemma string_compare_refl s : String.compare s s = Eq.
Proof. induction s as [|c s IH]; simpl; [reflexivity|]. now rewrite ascii_compare_refl. Qed.

Lemma string_compare_lt_trans a b c :
  String.compare a b = Lt -> String.compare b c = Lt -> String.compare a c = Lt.
Proof.
  revert b c. induction a as [|x a IH]; intros [|y b] [|z c]; simpl; try easy.
  destruct (Ascii.compare x y) eqn:Hxy; try discriminate;
    destruct (Ascii.compare y z) eqn:Hyz; try discriminate; intros Hab Hbc.
  - apply Ascii.compare_eq_iff in Hxy, Hyz. subst.
    rewrite ascii_compare_refl. eauto.
  - apply Ascii.compare_eq_iff in Hxy. subst. now rewrite Hyz.
  - apply Ascii.compare_eq_iff in Hyz. subst. now rewrite Hxy.
  - now rewrite (ascii_compare_lt_trans _ _ _ Hxy Hyz).
Qed.

Lemma str_lt_irrefl a : (a <? a) = false.
Proof. unfold String.ltb. now rewrite string_compare_refl. Qed.

Lemma str_lt_trans a b c : str_lt a b -> str_lt b c -> str_lt a c.
Proof.
  unfold str_lt, String.ltb. intros Hab Hbc.
  destruct (String.compare a b) eqn:E1; try discriminate.
  destruct (String.compare b c) eqn:E2; try discriminate.
  now rewrite (string_compare_lt_trans _ _ _ E1 E2).
Qed.

Lemma str_lt_le a b : str_lt a b -> str_le a b.
Proof.
  unfold str_lt, str_le, String.ltb. rewrite (String.compare_antisym b a).
  now destruct (String.compare a b).
Qed.

Lemma str_le_refl a : str_le a a.
Proof. apply str_lt_irrefl. Qed.

Lemma str_lt_le_le a b c : str_lt a b -> str_le b c -> str_le a c.
Proof.
  unfold str_le. intros Hab Hbc.
  destruct (c <? a) eqn:E; [|reflexivity].
  pose proof (str_lt_trans c a b E Hab) as H. unfold str_lt in H. congruence.
Qed.

Lemma str_le_lt_lt a b c : str_le a b -> str_lt b c -> str_lt a c.
Proof.
  unfold str_le, str_lt, String.ltb. rewrite (String.compare_antisym b a).
  destruct (String.compare a b) eqn:E; simpl; try discriminate; intros _ Hbc.
  - apply String.compare_eq_iff in E. now subst.
  - destruct (String.compare b c) eqn:E2; try discriminate.
    now rewrite (string_compare_lt_trans _ _ _ E E2).
Qed.

Lemma str_le_trans a b c : str_le a b -> str_le b c -> str_le a c.
Proof.
  intros Hab Hbc. unfold str_le. destruct (c <? a) eqn:E; [|reflexivity].
  pose proof (str_le_lt_lt _ _ _ Hbc E) as H. unfold str_lt in H.
  unfold str_le in Hab. congruence.
Qed.

Lemma str_le_neq_lt a b : str_le a b -> a <> b -> str_lt a b.
Proof.
  unfold str_le, str_lt, String.ltb. rewrite (String.compare_antisym b a).
  destruct (String.compare a b) eqn:E; simpl; try easy.
  apply String.compare_eq_iff in E. easy.
Qed.

Lemma str_lt_neq a b : str_lt a b -> a <> b.
Proof. intros H ->. unfold str_lt in H. now rewrite str_lt_irrefl in H. Qed.

End IdentifierOrder.

(** ** Texts written to [cout] *)

Section Text.

Lemma append_nil_r s : s ++ EmptyString = s.
Proof. induction s; simpl; congruence. Qed.

Lemma append_assoc a b c : (a ++ b) ++ c = a ++ (b ++ c).
Proof. induction a; simpl; congruence. Qed.

Lemma written_cons t texts : written (t :: texts) = t ++ written texts.
Proof.
  unfold written. destruct texts; simpl; [now rewrite append_nil_r|reflexivity].
Qed.

Lemma written_app l1 l2 : written (l1 ++ l2)%list = written l1 ++ written l2.
Proof.
  induction l1 as [|a l1 IH]; [reflexivity|].
  change ((a :: l1) ++ l2)%list with (a :: (l1 ++ l2))%list.
  now rewrite !written_cons, IH, append_assoc.
Qed.

End Text.

(** ** The catalog *)

Section Catalog.

Local Open Scope list_scope.

(** What [printAll] writes is the line of each enumerated course. *)
Lemma inOrder_lines node :
  inOrder node = written (map printCourseBasic (inOrderCourses node)).
Proof.
  induction node as [|c l IHl r IHr]; [reflexivity|].
  cbn [inOrder inOrderCourses].
  now rewrite map_app, written_app, IHl, IHr, map_cons, written_cons.
Qed.

Lemma addNode_perm node c :
  Permutation (c :: inOrderCourses node) (inOrderCourses (addNode node c)).
Proof.
  induction node as [|d l IHl r IHr]; simpl; [reflexivity|].
  destruct (courseNumber c <? courseNumber d); simpl.
  - rewrite <- IHl. reflexivity.
  - rewrite <- IHr.
    replace (inOrderCourses l ++ d :: c :: inOrderCourses r)
      with ((inOrderCourses l ++ [d]) ++ c :: inOrderCourses r)
      by (now rewrite <- app_assoc).
    replace (inOrderCourses l ++ d :: inOrderCourses r)
      with ((inOrderCourses l ++ [d]) ++ inOrderCourses r)
      by (now rewrite <- app_assoc).
    apply Permutation_middle.
Qed.

Lemma addNode_ordered node c : ordered node -> ordered (addNode node c).
Proof.
  induction node as [|d l IHl r IHr]; simpl.
  - intros _. repeat split; constructor.
  - intros (Hl & Hr & Ol & Or).
    destruct (courseNumber c <? courseNumber d) eqn:E; simpl; repeat split; auto.
    + eapply Permutation_Forall; [apply addNode_perm|]. now constructor.
    + eapply Permutation_Forall; [apply addNode_perm|]. now constructor.
Qed.

(** The in-order sequence of an ordered tree is non-decreasing. *)
Lemma ordered_sorted node :
  ordered node ->
  StronglySorted (fun a b => str_le (courseNumber a) (courseNumber b)) (inOrderCourses node).
Proof.
  induction node as [|d l IHl r IHr]; simpl; [constructor|].
  intros (Hl & Hr & Ol & Or).
  specialize (IHl Ol). specialize (IHr Or).
  revert IHl Hl. generalize (inOrderCourses l) as xs.
  induction xs as [|x xs IH]; simpl; intros Sx Fx.
  - constructor; assumption.
  - inversion Sx; subst. inversion Fx; subst. constructor; [now apply IH|].
    apply Forall_app. split; [assumption|]. constructor.
    + now apply str_lt_le.
    + eapply Forall_impl; [|exact Hr]. intros y Hy. simpl in Hy.
      eapply str_lt_le_le; eassumption.
Qed.

Lemma filter_other k (xs : list Course) :
  Forall (fun x => courseNumber x <> k) xs -> filter (has_number k) xs = [].
Proof.
  induction 1 as [|x xs Hx _ IH]; simpl; [reflexivity|].
  unfold has_number at 1. now apply String.eqb_neq in Hx as ->.
Qed.

(** [addNode] files a course after every course of the same number. *)
Lemma addNode_filter node c k :
  ordered node ->
  filter (has_number k) (inOrderCourses (addNode node c))
  = filter (has_number k) (inOrderCourses node) ++ filter (has_number k) [c].
Proof.
  induction node as [|d l IHl r IHr]; simpl; [reflexivity|].
  intros (Hl & Hr & Ol & Or).
  destruct (courseNumber c <? courseNumber d) eqn:E; simpl.
  - rewrite !filter_app, IHl by assumption.
    change (filter (has_number k) [c]) with (if has_number k c then [c] else []).
    destruct (has_number k c) eqn:Hc.
    + unfold has_number in Hc. apply String.eqb_eq in Hc. subst k.
      rewrite (filter_other (courseNumber c) (d :: inOrderCourses r));
        [now rewrite !app_nil_r|].
      constructor.
      * intros Hd. rewrite Hd, str_lt_irrefl in E. discriminate.
      * eapply Forall_impl; [|exact Hr]. intros y Hy Hd. simpl in Hy.
        unfold str_le in Hy. rewrite Hd in Hy.
        pose proof (str_lt_le _ _ E) as H. unfold str_le in H.
        pose proof (str_le_lt_lt _ _ _ Hy E) as H'. unfold str_lt in H'.
        rewrite str_lt_irrefl in H'. discriminate.
    + now rewrite !app_nil_r.
  - rewrite !filter_app. cbn [filter]. rewrite IHr by assumption.
    rewrite <- app_assoc. f_equal. now destruct (has_number k d).
Qed.

(** Searching after an insertion: what was found is still found, and the
    new course is found only if nothing was. *)
Lemma searchNode_addNode node c k :
  searchNode (addNode node c) k =
  match searchNode node k with
  | Some x => Some x
  | None => if has_number k c then Some c else None
  end.
Proof.
  unfold has_number.
  induction node as [|d l IHl r IHr]; simpl.
  - destruct (courseNumber c =? k); [reflexivity|].
    now destruct (k <? courseNumber c).
  - destruct (courseNumber c <? courseNumber d) eqn:E; simpl;
      destruct (courseNumber d =? k) eqn:Ed; try reflexivity;
      destruct (k <? courseNumber d) eqn:Ek; auto.
    + destruct (searchNode r k); [reflexivity|].
      destruct (String.eqb_spec (courseNumber c) k) as [Hc|]; [|reflexivity].
      rewrite Hc in E. congruence.
    + destruct (searchNode l k); [reflexivity|].
      destruct (String.eqb_spec (courseNumber c) k) as [Hc|]; [|reflexivity].
      rewrite Hc in E. congruence.
Qed.

(** [searchNode] returns a course of the tree, with the number asked for. *)
Lemma searchNode_sound node k c :
  searchNode node k = Some c -> courseNumber c = k /\ In c (inOrderCourses node).
Proof.
  induction node as [|d l IHl r IHr]; simpl; [discriminate|].
  destruct (String.eqb_spec (courseNumber d) k) as [Hd|Hd].
  - intros H; injection H as <-. split; [assumption|]. apply in_elt.
  - destruct (k <? courseNumber d); intros H.
    + destruct (IHl H). split; [assumption|]. apply in_or_app. now left.
    + destruct (IHr H). split; [assumption|]. apply in_or_app. right. now right.
Qed.

Lemma insertAll_ordered l : forall bst,
  ordered (root bst) -> ordered (root (insertAll bst l)).
Proof.
  induction l as [|c l IH]; intros bst H; simpl; [assumption|].
  apply IH. now apply addNode_ordered.
Qed.

Lemma insertAll_perm l : forall bst,
  Permutation (enumerate bst ++ l) (enumerate (insertAll bst l)).
Proof.
  induction l as [|c l IH]; intros bst; simpl.
  - now rewrite app_nil_r.
  - rewrite <- IH. unfold enumerate, insert. simpl.
    rewrite <- addNode_perm. symmetry. apply Permutation_middle.
Qed.

Lemma insertAll_filter l k : forall bst,
  ordered (root bst) ->
  filter (has_number k) (enumerate (insertAll bst l))
  = filter (has_number k) (enumerate bst) ++ filter (has_number k) l.
Proof.
  induction l as [|c l IH]; intros bst H; simpl.
  - now rewrite app_nil_r.
  - rewrite IH by (now apply addNode_ordered).
    unfold enumerate, insert. simpl. rewrite addNode_filter by assumption.
    rewrite <- app_assoc. f_equal. simpl. now destruct (has_number k c).
Qed.

Lemma insertAll_search l k : forall bst,
  search (insertAll bst l) k =
  match search bst k with
  | Some x => Some x
  | None => find (has_number k) l
  end.
Proof.
  induction l as [|c l IH]; intros bst; simpl.
  - now destruct (search bst k).
  - rewrite IH. unfold search, insert. simpl. rewrite searchNode_addNode.
    destruct (searchNode (root bst) k); [reflexivity|].
    now destruct (has_number k c).
Qed.

Lemma NoDup_numbers_eq (l : list Course) x y :
  NoDup (map courseNumber l) -> In x l -> In y l ->
  courseNumber x = courseNumber y -> x = y.
Proof.
  induction l as [|c l IH]; simpl; [easy|].
  intros Hnd [->|Hx] [->|Hy] E; inversion Hnd; subst; auto.
  - exfalso. apply H1. rewrite E. now apply in_map.
  - exfalso. apply H1. rewrite <- E. now apply in_map.
Qed.

Lemma sorted_nodup_strict (l : list string) :
  StronglySorted str_le l -> NoDup l -> StronglySorted str_lt l.
Proof.
  induction 1 as [|a l Hs IH Ha]; intros Hnd; constructor; inversion Hnd; subst.
  - now apply IH.
  - rewrite Forall_forall in *. intros x Hx. apply str_le_neq_lt; [now apply Ha|].
    intros ->. contradiction.
Qed.

Lemma sorted_map_numbers (l : list Course) :
  StronglySorted (fun a b => str_le (courseNumber a) (courseNumber b)) l ->
  StronglySorted str_le (map courseNumber l).
Proof.
  induction 1 as [|a l Hs IH Ha]; simpl; constructor; [assumption|].
  rewrite Forall_forall in *. intros x Hx. apply in_map_iff in Hx as (y & <- & Hy). auto.
Qed.

End Catalog.

(** ** Claims about the catalog *)

(** C1.  First insertion wins.  A course that [search] finds is still the
    one found after any further insertions, whatever their numbers; and in
    a catalog filled from empty, [search] returns the first inserted course
    that has the number asked for. *)
Theorem first_insertion_wins :
  (forall (bst : CourseBST) (courses : list Course) (k : string) (c : Course),
      search bst k = Some c -> search (insertAll bst courses) k = Some c)
  /\ (forall (courses : list Course) (k : string),
      search (insertAll newBST courses) k
      = find (fun c => courseNumber c =? k) courses).
Proof.
  split.
  - intros bst courses k c H. now rewrite insertAll_search, H.
  - intros courses k. now rewrite insertAll_search.
Qed.

Lemma first_insertion_wins_witness :
  search (insertAll (insert newBST firstRecord) [laterRecord]) "CSCI100"
  = Some firstRecord.
Proof.
  apply (proj1 first_insertion_wins). reflexivity.
Defined.

(** C2, as stated, fails: after two insertions with the same number the
    enumeration repeats that number, so it is not strictly ascending. *)
Lemma enumeration_not_strict :
  ~ Sorted str_lt
      (map courseNumber (enumerate (insertAll newBST [firstRecord; laterRecord]))).
Proof.
  intros H. inversion H as [|a l _ Hd]; subst.
  inversion Hd as [|b l' Hlt]; subst. discriminate Hlt.
Qed.

(** C2, amended.  [printAll] writes the line of each course of the
    enumeration, in its order; the numbers of the enumeration of a catalog
    filled from empty are in non-decreasing order, and in strictly ascending
    order when the inserted numbers are pairwise distinct. *)
Theorem enumeration_ascending (courses : list Course) :
  printAll (insertAll newBST courses)
  = written (map printCourseBasic (enumerate (insertAll newBST courses)))
  /\ StronglySorted str_le (map courseNumber (enumerate (insertAll newBST courses)))
  /\ (NoDup (map courseNumber courses) ->
      StronglySorted str_lt (map courseNumber (enumerate (insertAll newBST courses)))).
Proof.
  assert (StronglySorted str_le
            (map courseNumber (enumerate (insertAll newBST courses)))) as Hs.
  { apply sorted_map_numbers, ordered_sorted, insertAll_ordered. exact I. }
  split; [apply inOrder_lines|]. split; [exact Hs|].
  intros Hnd. apply sorted_nodup_strict; [exact Hs|].
  eapply Permutation_NoDup; [|exact Hnd].
  apply Permutation_map. apply (insertAll_perm courses newBST).
Qed.

Lemma enumeration_ascending_witness :
  StronglySorted str_lt
    (map courseNumber
       (enumerate (insertAll newBST
          [mkCourse "MATH201" "Discrete Mathematics" [];
           mkCourse "CSCI100" "Introduction to Computer Science" [];
           mkCourse "CSCI101" "Introduction to Programming in C++" ["CSCI100"]]))).
Proof.
  apply (proj2 (proj2 (enumeration_ascending _))). simpl.
  repeat constructor; simpl; intuition discriminate.
Defined.

(** C3, as stated, fails: the later record of a repeated number is
    enumerated, and [search] on its number returns the first record, whose
    title is another one. *)
Lemma lookup_title_differs :
  In laterRecord (enumerate (insertAll newBST [firstRecord; laterRecord]))
  /\ forall Y,
       search (insertAll newBST [firstRecord; laterRecord]) (courseNumber laterRecord)
       = Some Y ->
       courseName Y <> courseName laterRecord.
Proof.
  split.
  - simpl. auto.
  - intros Y H. injection H as <-. discriminate.
Qed.

(** C3, amended.  For every course [X] enumerated from a catalog filled from
    empty, [search] on the number of [X] returns a record with that number:
    the first inserted course that has it.  That record is [X] itself, title
    included, when the inserted numbers are pairwise distinct. *)
Theorem lookup_agrees_with_enumeration (courses : list Course) (X : Course) :
  In X (enumerate (insertAll newBST courses)) ->
  exists Y,
    search (insertAll newBST courses) (courseNumber X) = Some Y
    /\ courseNumber Y = courseNumber X
    /\ find (fun c => courseNumber c =? courseNumber X) courses = Some Y
    /\ (NoDup (map courseNumber courses) -> Y = X).
Proof.
  intros HX.
  assert (In X courses) as HXl.
  { eapply Permutation_in; [symmetry; apply (insertAll_perm courses newBST)|exact HX]. }
  rewrite insertAll_search. simpl.
  change (fun c : Course => courseNumber c =? courseNumber X)
    with (has_number (courseNumber X)).
  destruct (find (has_number (courseNumber X)) courses) as [Y|] eqn:E.
  - apply find_some in E as [HY HnY]. apply String.eqb_eq in HnY.
    exists Y. repeat split; trivial.
    intros Hnd. eapply NoDup_numbers_eq; eassumption.
  - exfalso. apply (find_none _ _ E) in HXl.
    unfold has_number in HXl. now rewrite String.eqb_refl in HXl.
Qed.

Lemma lookup_agrees_with_enumeration_witness :
  exists Y,
    search (insertAll newBST [firstRecord; laterRecord]) "CSCI100" = Some Y
    /\ courseNumber Y = "CSCI100"
    /\ find (fun c => courseNumber c =? "CSCI100") [firstRecord; laterRecord] = Some Y
    /\ (NoDup ["CSCI100"; "CSCI100"] -> Y = laterRecord).
Proof.
  apply (lookup_agrees_with_enumeration [firstRecord; laterRecord] laterRecord).
  simpl. auto.
Defined.

(** C9.  What [printAll] writes for a catalog filled from empty is the line
    of each course of the enumeration, in its order, and the enumeration is
    the stable sort of the inserted courses by number: it is a permutation
    of them (none dropped, none repeated), in non-decreasing order of
    number, and the courses of any one number come in their order of
    insertion. *)
Theorem enumeration_stable (courses : list Course) :
  printAll (insertAll newBST courses)
  = written (map printCourseBasic (enumerate (insertAll newBST courses)))
  /\ Permutation courses (enumerate (insertAll newBST courses))
  /\ StronglySorted (fun a b => str_le (courseNumber a) (courseNumber b))
       (enumerate (insertAll newBST courses))
  /\ forall k : string,
       filter (fun c => courseNumber c =? k) (enumerate (insertAll newBST courses))
       = filter (fun c => courseNumber c =? k) courses.
Proof.
  split; [apply inOrder_lines|]. repeat split.
  - apply (insertAll_perm courses newBST).
  - apply ordered_sorted, insertAll_ordered. exact I.
  - intros k. apply (insertAll_filter courses k newBST). exact I.
Qed.

(** C10.  [search] returns a course only under the very number asked for,
    and renormalizes nothing: in a catalog whose numbers are all normalized,
    a query with a lowercase letter, or with whitespace at either end, finds
    nothing. *)
Theorem search_is_exact :
  (forall (bst : CourseBST) (q : string) (c : Course),
      search bst q = Some c -> courseNumber c = q /\ In c (enumerate bst))
  /\ (forall (bst : CourseBST) (q : string),
      Forall (fun c => normalized (courseNumber c)) (enumerate bst) ->
      has_lower q || starts_with_space q || ends_with_space q = true ->
      search bst q = None).
Proof.
  split.
  - intros bst q c H. now apply searchNode_sound.
  - intros bst q Hall Hq. destruct (search bst q) as [c|] eqn:E; [|reflexivity].
    apply searchNode_sound in E as [Hc Hin].
    rewrite Forall_forall in Hall. specialize (Hall c Hin). rewrite Hc in Hall.
    apply normalized_shape in Hall as (H1 & H2 & H3).
    rewrite H1, H2, H3 in Hq. discriminate.
Qed.

Lemma search_is_exact_witness :
  search (insert newBST firstRecord) "csci100" = None
  /\ search (insert newBST firstRecord) " CSCI100" = None.
Proof.
  split; apply (proj2 search_is_exact);
    solve [ repeat constructor | reflexivity ].
Defined.

(** ** The loader *)

Section Loader.

Local Open Scope list_scope.

Lemma getline_none input delim : Std.getline input delim = None -> input = EmptyString.
Proof. destruct input; [reflexivity|discriminate]. Qed.

Lemma getline_extracted input delim str rest :
  Std.getline input delim = Some (str, rest) ->
  extracted delim input = str :: extracted delim rest.
Proof.
  revert str rest. induction input as [|c s IH]; intros str rest; [discriminate|].
  unfold Std.getline. cbn [Std.read_until extracted].
  destruct (Ascii.eqb c delim).
  - intros H. now inversion H.
  - destruct (Std.read_until delim s) as [t r] eqn:E. intros H. inversion H; subst.
    destruct s as [|d s].
    + simpl in E. now inversion E.
    + rewrite (IH t rest); [reflexivity|]. unfold Std.getline. now rewrite E.
Qed.

Lemma splitLoop_extracted ss tokens :
  splitLoop ss tokens = tokens ++ extracted "," ss.
Proof.
  funelim (splitLoop ss tokens).
  - match goal with IH : splitLoop _ _ = _ ++ extracted _ _ |- _ => rewrite IH end.
    rewrite (getline_extracted _ _ _ _ Hget), <- app_assoc. reflexivity.
  - rewrite (getline_none _ _ Hend). simpl. now rewrite app_nil_r.
Qed.

Lemma split_nonempty delim s : LoaderSpec.split delim s <> [].
Proof.
  destruct s as [|c s]; simpl; [discriminate|].
  destruct (Ascii.eqb c delim); [discriminate|].
  destruct (LoaderSpec.split delim s); discriminate.
Qed.

(** [getline] extracts the pieces between the delimiters, but for an empty
    piece after the last delimiter. *)
Lemma extracted_split delim s :
  extracted delim s = LoaderSpec.drop_empty_end (LoaderSpec.split delim s).
Proof.
  unfold LoaderSpec.drop_empty_end.
  induction s as [|c s IH]; [reflexivity|].
  cbn [extracted LoaderSpec.split]. rewrite IH.
  pose proof (split_nonempty delim s) as Hne.
  destruct (LoaderSpec.split delim s) as [|p ps]; [contradiction|].
  destruct (Ascii.eqb c delim).
  - change (last (EmptyString :: p :: ps) EmptyString) with (last (p :: ps) EmptyString).
    change (removelast (EmptyString :: p :: ps))
      with (EmptyString :: removelast (p :: ps)).
    now destruct (last (p :: ps) EmptyString =? EmptyString)%string.
  - destruct ps as [|q ps].
    + simpl. now destruct p.
    + change (last (String c p :: q :: ps) EmptyString) with (last (q :: ps) EmptyString).
      change (last (p :: q :: ps) EmptyString) with (last (q :: ps) EmptyString).
      change (removelast (String c p :: q :: ps))
        with (String c p :: removelast (q :: ps)).
      change (removelast (p :: q :: ps)) with (p :: removelast (q :: ps)).
      now destruct (last (q :: ps) EmptyString =? EmptyString)%string.
Qed.

Lemma splitLoop_fields line : splitLoop line [] = LoaderSpec.fields_read line.
Proof. rewrite splitLoop_extracted. apply extracted_split. Qed.

Lemma skipn_nth (tokens : list string) i :
  i < List.length tokens ->
  skipn i tokens = nth i tokens EmptyString :: skipn (S i) tokens.
Proof.
  revert i. induction tokens as [|t tokens IH]; intros [|i] H; simpl in *; try lia.
  - reflexivity.
  - apply IH. lia.
Qed.

Lemma prereqLoop_map tokens i prereqs :
  prereqLoop tokens i prereqs = prereqs ++ map toUpperTrim (skipn i tokens).
Proof.
  funelim (prereqLoop tokens i prereqs).
  - match goal with IH : prereqLoop _ _ _ = _ ++ map _ _ |- _ => rewrite IH end.
    rewrite (skipn_nth tokens i) by assumption. simpl. now rewrite <- app_assoc.
  - rewrite skipn_all2 by lia. now rewrite app_nil_r.
Qed.

Lemma course_of_tokens tokens :
  mkCourse (toUpperTrim (nth 0 tokens EmptyString)) (nth 1 tokens EmptyString)
           (prereqLoop tokens 2 [])
  = LoaderSpec.course_of tokens.
Proof.
  unfold LoaderSpec.course_of. rewrite prereqLoop_map, toUpperTrim_normalize.
  f_equal. apply map_ext, toUpperTrim_normalize.
Qed.

(** One turn of the loop of [loadCourses] against [LoaderSpec.load_line];
    [hdr] is what was written before the loop. *)
Lemma loadLine_spec line bst hdr warned :
  loadLine line bst (hdr ++ written (map LoaderSpec.warning warned))%string =
  let st := LoaderSpec.load_line LoaderSpec.fields_read (bst, warned) line in
  (fst st, (hdr ++ written (map LoaderSpec.warning (snd st)))%string).
Proof.
  unfold loadLine, LoaderSpec.load_line. cbn [fst snd].
  destruct (line =? EmptyString)%string; [reflexivity|].
  rewrite splitLoop_fields.
  destruct (List.length (LoaderSpec.fields_read line) <? 2)%nat; cbn [fst snd].
  - rewrite map_app, written_app, append_assoc. cbn [map].
    rewrite written_cons. unfold written at 3. simpl String.concat.
    now rewrite append_nil_r.
  - now rewrite course_of_tokens.
Qed.

Lemma loadLoop_fold file bst cout :
  loadLoop file bst cout =
  fold_left (fun st line => loadLine line (fst st) (snd st))
    (extracted "010" file) (bst, cout).
Proof.
  funelim (loadLoop file bst cout).
  - rewrite (getline_extracted _ _ _ _ Hget). cbn [fold_left fst snd].
    match goal with IH : loadLoop _ _ _ = fold_left _ _ _ |- _ => rewrite IH end.
    f_equal. now destruct (loadLine line bst cout).
  - now rewrite (getline_none _ _ Hend).
Qed.

Lemma fold_loadLine_spec ls : forall bst hdr warned,
  fold_left (fun st line => loadLine line (fst st) (snd st)) ls
    (bst, (hdr ++ written (map LoaderSpec.warning warned))%string) =
  let st := fold_left (LoaderSpec.load_line LoaderSpec.fields_read) ls (bst, warned) in
  (fst st, (hdr ++ written (map LoaderSpec.warning (snd st)))%string).
Proof.
  induction ls as [|line ls IH]; intros bst hdr warned; [reflexivity|].
  cbn [fold_left fst snd]. rewrite loadLine_spec. cbn zeta.
  destruct (LoaderSpec.load_line LoaderSpec.fields_read (bst, warned) line) as [b w].
  apply IH.
Qed.

(** The empty piece after a last newline is a blank line, which changes
    nothing. *)
Lemma fold_drop_empty_end cut ls st :
  fold_left (LoaderSpec.load_line cut) (LoaderSpec.drop_empty_end ls) st
  = fold_left (LoaderSpec.load_line cut) ls st.
Proof.
  unfold LoaderSpec.drop_empty_end.
  destruct (String.eqb_spec (last ls EmptyString) EmptyString) as [E|]; [|reflexivity].
  destruct ls as [|l ls]; [reflexivity|].
  rewrite (app_removelast_last (l := l :: ls) EmptyString) at 2 by discriminate.
  rewrite fold_left_app, E. reflexivity.
Qed.

Lemma loadLoop_spec file bst hdr :
  loadLoop file bst hdr =
  (fst (LoaderSpec.load LoaderSpec.fields_read file bst),
   (hdr ++ written (map LoaderSpec.warning
                      (snd (LoaderSpec.load LoaderSpec.fields_read file bst))))%string).
Proof.
  rewrite loadLoop_fold, extracted_split.
  rewrite <- (append_nil_r hdr) at 1.
  change EmptyString with (written (map LoaderSpec.warning [])) at 1.
  rewrite fold_loadLine_spec. cbn zeta. rewrite fold_drop_empty_end. reflexivity.
Qed.

(** A property of the courses of the catalog that every record of the file
    has holds of the catalog after the load. *)
Lemma load_invariant (P : Course -> Prop) cut ls : forall st,
  Forall P (enumerate (fst st)) ->
  (forall line, In line ls -> line <> EmptyString -> 2 <= List.length (cut line) ->
                P (LoaderSpec.course_of (cut line))) ->
  Forall P (enumerate (fst (fold_left (LoaderSpec.load_line cut) ls st))).
Proof.
  induction ls as [|line ls IH]; intros st Hst Hls; [assumption|].
  cbn [fold_left]. apply IH.
  - unfold LoaderSpec.load_line.
    destruct (String.eqb_spec line EmptyString); [assumption|].
    destruct (Nat.ltb_spec (List.length (cut line)) 2); [assumption|].
    cbn [fst]. unfold enumerate, insert. cbn [root].
    eapply Permutation_Forall; [apply addNode_perm|].
    constructor; [|assumption]. apply Hls; simpl; auto.
  - intros l Hl. apply Hls. now right.
Qed.

(** [loadCourses] on a file that opens, against [LoaderSpec.load]. *)
Lemma loadCourses_open fs filename file bst :
  fs filename = Some file ->
  loadCourses fs filename bst =
  (fst (LoaderSpec.load LoaderSpec.fields_read file bst),
   ("Loading courses from " ++ filename ++ "..." ++ Std.endl
    ++ written (map LoaderSpec.warning
                  (snd (LoaderSpec.load LoaderSpec.fields_read file bst)))
    ++ "Courses loaded into data structure." ++ Std.endl)%string).
Proof.
  intros Hopen. unfold loadCourses. rewrite Hopen, loadLoop_spec.
  f_equal. rewrite !append_assoc. reflexivity.
Qed.

End Loader.

(** ** Claims about the loader *)

(** C4, at the input on which the loader misses it.  The line ["CSCI100,"]
    is not empty and splits on [','] into two fields, the number and an
    empty title, so the loader is to insert the course of number CSCI100
    with the empty title.  The loop of [getline] extracts nothing after the
    last comma: the loader counts one token, warns about the line and
    inserts nothing.  With one more comma, ["CSCI100,,"], the same record is
    accepted, empty title included. *)
Theorem trailing_comma_rejected :
  LoaderSpec.fields "CSCI100," = ["CSCI100"; EmptyString]
  /\ loadCourses (fun _ => Some "CSCI100,") "courses.csv" newBST
     = (newBST,
        "Loading courses from courses.csv..." ++ Std.endl
        ++ "WARNING: Invalid course line (skipped): CSCI100," ++ Std.endl
        ++ "Courses loaded into data structure." ++ Std.endl)
  /\ enumerate (fst (LoaderSpec.load LoaderSpec.fields "CSCI100," newBST))
     = [mkCourse "CSCI100" EmptyString []]
  /\ loadCourses (fun _ => Some "CSCI100,,") "courses.csv" newBST
     = (insert newBST (mkCourse "CSCI100" EmptyString []),
        "Loading courses from courses.csv..." ++ Std.endl
        ++ "Courses loaded into data structure." ++ Std.endl).
Proof. repeat split. Qed.

(** C7, as stated, fails: a line whose field 0 is empty, or is whitespace
    only, puts a course with an empty number into the catalog. *)
Lemma empty_number_stored :
  enumerate (fst (loadCourses (fun _ => Some " ,Special Topics") "courses.csv" newBST))
  = [mkCourse EmptyString "Special Topics" []].
Proof. reflexivity. Qed.

(** C7, amended.  If the numbers of the catalog are normalized before a
    load they all are after it; in particular every number of a catalog
    loaded from empty is a fixed point of [toUpperTrim], with no lowercase
    letter and no whitespace at either end.  Such a number may be empty; the
    numbers stay non-empty when field 0 of every record of the file has a
    character that is not whitespace. *)
Theorem loaded_numbers_normalized (fs : FileSystem) (filename : string) (bst : CourseBST) :
  Forall (fun c => normalized (courseNumber c)) (enumerate bst) ->
  Forall (fun c => normalized (courseNumber c)
                   /\ has_lower (courseNumber c) = false
                   /\ starts_with_space (courseNumber c) = false
                   /\ ends_with_space (courseNumber c) = false)
         (enumerate (fst (loadCourses fs filename bst)))
  /\ (Forall (fun c => courseNumber c <> EmptyString) (enumerate bst) ->
      (forall file line,
          fs filename = Some file -> In line (LoaderSpec.lines file) ->
          2 <= List.length (LoaderSpec.fields_read line) ->
          has_content (nth 0 (LoaderSpec.fields_read line) EmptyString) = true) ->
      Forall (fun c => courseNumber c <> EmptyString)
             (enumerate (fst (loadCourses fs filename bst)))).
Proof.
  intros Hbst. split.
  - assert (Forall (fun c => normalized (courseNumber c))
              (enumerate (fst (loadCourses fs filename bst)))) as H.
    { destruct (fs filename) as [file|] eqn:Hopen.
      - rewrite (loadCourses_open _ _ _ _ Hopen). cbn [fst].
        apply load_invariant; [exact Hbst|].
        intros line _ _ _. cbn [LoaderSpec.course_of courseNumber].
        rewrite <- toUpperTrim_normalize. apply toUpperTrim_normalized.
      - unfold loadCourses. now rewrite Hopen. }
    eapply Forall_impl; [|exact H]. intros c Hc. split; [exact Hc|].
    now apply normalized_shape.
  - intros Hne Hfile. destruct (fs filename) as [file|] eqn:Hopen.
    + rewrite (loadCourses_open _ _ _ _ Hopen). cbn [fst].
      apply load_invariant; [exact Hne|].
      intros line Hin _ Hlen. cbn [LoaderSpec.course_of courseNumber].
      rewrite <- toUpperTrim_normalize. apply toUpperTrim_content.
      exact (Hfile file line eq_refl Hin Hlen).
    + unfold loadCourses. now rewrite Hopen.
Qed.

Lemma loaded_numbers_normalized_witness :
  Forall (fun c => courseNumber c <> EmptyString)
         (enumerate (fst (loadCourses (fun _ => Some "cs 101,Writing")
                            "courses.csv" newBST))).
Proof.
  apply (proj2 (loaded_numbers_normalized (fun _ => Some "cs 101,Writing")
                  "courses.csv" newBST (Forall_nil _))).
  - constructor.
  - intros file line Hopen Hin _. injection Hopen as <-.
    destruct Hin as [<-|[]]. reflexivity.
Defined.

(** C8.  When the file cannot be opened, [loadCourses] writes the error
    message and returns the catalog as it was. *)
Theorem load_failure_unchanged (fs : FileSystem) (filename : string) (bst : CourseBST) :
  fs filename = None ->
  loadCourses fs filename bst
  = (bst, "ERROR: Could not open file: " ++ filename ++ Std.endl).
Proof. intros Hopen. unfold loadCourses. now rewrite Hopen. Qed.

Lemma load_failure_unchanged_witness :
  loadCourses (fun _ => None) "missing.csv" (insert newBST firstRecord)
  = (insert newBST firstRecord,
     "ERROR: Could not open file: missing.csv" ++ Std.endl).
Proof. apply load_failure_unchanged. reflexivity. Defined.

(** ** The detail printer *)

Section Detail.

Lemma concat_cons sep x xs :
  String.concat sep (x :: xs) = x ++ written (map (fun y => sep ++ y) xs).
Proof.
  revert x. induction xs as [|y xs IH]; intros x.
  - simpl. now rewrite append_nil_r.
  - change (String.concat sep (x :: y :: xs)) with (x ++ sep ++ String.concat sep (y :: xs)).
    now rewrite IH, map_cons, written_cons, append_assoc.
Qed.

(** Once a first prerequisite is written, each further one comes after a
    comma and a space. *)
Lemma printPrereqs_rest bst prereqs : forall cout,
  printPrereqs bst prereqs cout true
  = cout ++ written (map (fun y => ", " ++ y) (map (DetailSpec.entry bst) prereqs)).
Proof.
  induction prereqs as [|p prereqs IH]; intros cout.
  - simpl. now rewrite append_nil_r.
  - cbn [printPrereqs map]. rewrite written_cons.
    unfold DetailSpec.entry at 1.
    destruct (search bst p) as [c|]; rewrite IH, !append_assoc; reflexivity.
Qed.

Lemma printPrereqs_first bst p prereqs cout :
  printPrereqs bst (p :: prereqs) cout false
  = cout ++ String.concat ", " (map (DetailSpec.entry bst) (p :: prereqs)).
Proof.
  cbn [printPrereqs map]. rewrite concat_cons.
  unfold DetailSpec.entry at 1.
  destruct (search bst p) as [c|]; rewrite printPrereqs_rest, !append_assoc; reflexivity.
Qed.

End Detail.

(** ** Claims about the normalizer and the detail printer *)

(** C5.  After its prompt, and for the line [userInput] that it reads,
    [printCourseInfo] writes what the specification says of detail
    rendering: the not-found notice when the normalized query is not in the
    catalog; otherwise the line "id, title", followed by "Prerequisites:
    None" for a course without prerequisites and else by "Prerequisites: "
    and the entries of the prerequisites in their order, separated by a
    comma and a space, an entry being "id: title" of the course found for it
    or the prerequisite itself with ": None Required". *)
Theorem printCourseInfo_renders (bst : CourseBST) (cin userInput cin' : string) :
  Std.getline cin "010" = Some (userInput, cin') ->
  printCourseInfo bst cin = (prompt ++ DetailSpec.render bst userInput, cin').
Proof.
  intros Hget. unfold printCourseInfo, DetailSpec.render. rewrite Hget.
  rewrite <- toUpperTrim_normalize.
  destruct (search bst (toUpperTrim userInput)) as [course|]; [|reflexivity].
  unfold DetailSpec.prerequisites_line.
  destruct (prerequisites course) as [|p ps].
  - f_equal. now rewrite !append_assoc.
  - rewrite printPrereqs_first. f_equal. now rewrite !append_assoc.
Qed.

Lemma printCourseInfo_renders_witness :
  printCourseInfo
    (insertAll newBST
       [mkCourse "CSCI100" "Introduction to Computer Science" [];
        mkCourse "CSCI301" "Advanced Programming in C++" ["CSCI100"; "CSCI999"]])
    (" csci301 " ++ Std.endl)
  = (prompt ++ "CSCI301, Advanced Programming in C++" ++ Std.endl
     ++ "Prerequisites: CSCI100: Introduction to Computer Science, CSCI999: None Required"
     ++ Std.endl,
     EmptyString).
Proof.
  rewrite (printCourseInfo_renders _ _ " csci301 " EmptyString); reflexivity.
Defined.

(** C6.  [toUpperTrim] is the normalizer of the specification: the text
    without its leading and trailing characters of the set space, tab,
    carriage return, newline, each byte from 0x61 to 0x7A replaced by the
    byte 0x20 below it and every other byte left as it is; a text of such
    whitespace only is normalized to the empty text. *)
Theorem toUpperTrim_spec :
  (forall s : string, toUpperTrim s = NormalizeSpec.normalize s)
  /\ (forall c : ascii,
        N_of_ascii (Std.toupper c) =
        if ((97 <=? N_of_ascii c) && (N_of_ascii c <=? 122))%N
        then (N_of_ascii c - 32)%N else N_of_ascii c)
  /\ (forall s : string, has_content s = false -> toUpperTrim s = EmptyString).
Proof.
  repeat split.
  - apply toUpperTrim_normalize.
  - apply toupper_code.
  - apply toUpperTrim_blank.
Qed.

Lemma toUpperTrim_spec_witness :
  toUpperTrim (String " " (String "009" (String "013" (String "010" EmptyString))))
  = EmptyString.
Proof. apply (proj2 (proj2 toUpperTrim_spec)). reflexivity. Defined.

(** * Further properties of the code *)

(** ** The catalog *)

Section CatalogMore.

Local Open Scope list_scope.

(** In an ordered tree [searchNode] finds a course for every number that
    the tree holds. *)
Lemma searchNode_complete node c :
  ordered node -> In c (inOrderCourses node) ->
  exists c', searchNode node (courseNumber c) = Some c'.
Proof.
  induction node as [|d l IHl r IHr]; simpl; [easy|].
  intros (Hl & Hr & Ol & Or) Hin.
  destruct (courseNumber d =? courseNumber c)%string eqn:Ed; [now exists d|].
  apply String.eqb_neq in Ed.
  apply in_app_or in Hin as [Hin|[->|Hin]]; [| easy |].
  - rewrite Forall_forall in Hl. rewrite (Hl c Hin). now apply IHl.
  - rewrite Forall_forall in Hr. rewrite (Hr c Hin). now apply IHr.
Qed.

(** [addNode] puts the new course somewhere in the sequence and leaves the
    courses that were there in the order they had. *)
Lemma addNode_splits node c :
  exists l1 l2,
    inOrderCourses node = l1 ++ l2
    /\ inOrderCourses (addNode node c) = l1 ++ c :: l2.
Proof.
  induction node as [|d l (a1 & a2 & Ha & Ha') r (b1 & b2 & Hb & Hb')]; simpl.
  - now exists [], [].
  - destruct (courseNumber c <? courseNumber d)%string; simpl.
    + exists a1, (a2 ++ d :: inOrderCourses r).
      rewrite Ha, Ha', <- !app_assoc. split; reflexivity.
    + exists (inOrderCourses l ++ d :: b1), b2.
      rewrite Hb, Hb', <- !app_assoc. split; reflexivity.
Qed.

Lemma find_app_same (f : Course -> bool) l : find f (l ++ l) = find f l.
Proof.
  assert (forall k, find f (l ++ k) = match find f l with Some x => Some x | None => find f k end) as H.
  { induction l as [|a l IH]; intros k; simpl; [reflexivity|].
    destruct (f a); [reflexivity|apply IH]. }
  rewrite H. now destruct (find f l).
Qed.

Lemma insertAll_app bst l1 l2 :
  insertAll bst (l1 ++ l2) = insertAll (insertAll bst l1) l2.
Proof. apply fold_left_app. Qed.

Lemma loadCourses_ordered fs filename bst :
  ordered (root bst) -> ordered (root (fst (loadCourses fs filename bst))).
Proof.
  intros H. destruct (fs filename) as [file|] eqn:Hopen.
  - rewrite (loadCourses_open _ _ _ _ Hopen). cbn [fst].
    unfold LoaderSpec.load.
    assert (forall ls st, ordered (root (fst st)) ->
              ordered (root (fst (fold_left (LoaderSpec.load_line LoaderSpec.fields_read) ls st)))) as Hfold.
    { induction ls as [|line ls IH]; intros st Hst; [assumption|].
      cbn [fold_left]. apply IH. unfold LoaderSpec.load_line.
      destruct (line =? EmptyString)%string; [assumption|].
      destruct (List.length (LoaderSpec.fields_read line) <? 2)%nat; [assumption|].
      cbn [fst]. now apply addNode_ordered. }
    now apply Hfold.
  - unfold loadCourses. now rewrite Hopen.
Qed.

(** A property that every course built from fields has is kept by a
    load. *)
Lemma loadCourses_keeps (P : Course -> Prop) fs filename bst :
  (forall tokens, P (LoaderSpec.course_of tokens)) ->
  Forall P (enumerate bst) ->
  Forall P (enumerate (fst (loadCourses fs filename bst))).
Proof.
  intros HP Hbst. destruct (fs filename) as [file|] eqn:Hopen.
  - rewrite (loadCourses_open _ _ _ _ Hopen). cbn [fst].
    apply load_invariant; [exact Hbst|]. intros line _ _ _. apply HP.
  - unfold loadCourses. now rewrite Hopen.
Qed.

End CatalogMore.

(** X1.  In a catalog that keeps the order of a search tree, [search]
    returns nothing for a number exactly when no course of the catalog has
    that number. *)
Theorem search_none_iff (bst : CourseBST) (k : string) :
  ordered (root bst) ->
  (search bst k = None <-> forall c, In c (enumerate bst) -> courseNumber c <> k).
Proof.
  intros Hord. split.
  - intros Hnone c Hin Hk.
    destruct (searchNode_complete (root bst) c Hord Hin) as [c' Hc'].
    unfold search in Hnone. rewrite Hk in Hc'. congruence.
  - intros Hall. destruct (search bst k) as [c|] eqn:E; [|reflexivity].
    apply searchNode_sound in E as [Hk Hin]. now apply Hall in Hin.
Qed.

Lemma search_none_iff_witness :
  search (insertAll newBST [firstRecord; laterRecord]) "ZZZ000" = None.
Proof.
  apply (proj2 (search_none_iff (insertAll newBST [firstRecord; laterRecord]) "ZZZ000"
                  ltac:(simpl; repeat split; repeat constructor))).
  intros c [<-|[<-|[]]]; discriminate.
Defined.

(** X2.  The order of a search tree is an invariant of the catalog: the
    empty catalog has it, [insert] keeps it, and so does [loadCourses],
    whether the file can be opened or not. *)
Theorem catalog_stays_ordered :
  ordered (root newBST)
  /\ (forall bst c, ordered (root bst) -> ordered (root (insert bst c)))
  /\ (forall fs filename bst,
        ordered (root bst) -> ordered (root (fst (loadCourses fs filename bst)))).
Proof.
  split; [exact I|]. split.
  - intros bst c H. now apply addNode_ordered.
  - intros fs filename bst H. now apply loadCourses_ordered.
Qed.

Lemma catalog_stays_ordered_witness :
  ordered (root (fst (loadCourses (fun _ => Some sampleFile) "courses.csv"
                        (insert newBST firstRecord)))).
Proof.
  apply (proj2 (proj2 catalog_stays_ordered)).
  apply (proj1 (proj2 catalog_stays_ordered)).
  exact (proj1 catalog_stays_ordered).
Defined.

(** X3.  After [insert] of a course, [search] on its number returns that
    course when the number was not found before, and [search] on any other
    number returns what it returned before. *)
Theorem insert_then_search (bst : CourseBST) (c : Course) :
  (search bst (courseNumber c) = None ->
   search (insert bst c) (courseNumber c) = Some c)
  /\ (forall k, k <> courseNumber c -> search (insert bst c) k = search bst k).
Proof.
  unfold search, insert. cbn [root]. split.
  - intros Hnone. rewrite searchNode_addNode, Hnone.
    unfold has_number. now rewrite String.eqb_refl.
  - intros k Hk. rewrite searchNode_addNode.
    destruct (searchNode (root bst) k); [reflexivity|].
    unfold has_number. apply not_eq_sym in Hk.
    now apply String.eqb_neq in Hk as ->.
Qed.

Lemma insert_then_search_witness :
  search (insert (insert newBST firstRecord) (mkCourse "MATH201" "Discrete Mathematics" []))
    "MATH201" = Some (mkCourse "MATH201" "Discrete Mathematics" [])
  /\ search (insert (insert newBST firstRecord) (mkCourse "MATH201" "Discrete Mathematics" []))
       "CSCI100" = Some firstRecord.
Proof.
  split.
  - apply (proj1 (insert_then_search (insert newBST firstRecord)
                    (mkCourse "MATH201" "Discrete Mathematics" []))).
    reflexivity.
  - rewrite (proj2 (insert_then_search (insert newBST firstRecord)
                      (mkCourse "MATH201" "Discrete Mathematics" [])));
      [reflexivity|discriminate].
Defined.

(** X4.  [insert] adds its course at one place of the enumeration of any
    catalog and leaves the courses already there in the order they had. *)
Theorem insert_keeps_listing (bst : CourseBST) (c : Course) :
  exists l1 l2 : list Course,
    enumerate bst = (l1 ++ l2)%list
    /\ enumerate (insert bst c) = (l1 ++ c :: l2)%list.
Proof. apply addNode_splits. Qed.

(** ** The normalizer *)

Section NormalizerMore.

Import NormalizeSpec.
Local Open Scope list_scope.

Lemma list_ascii_of_append a b :
  list_ascii_of_string (a ++ b)%string = list_ascii_of_string a ++ list_ascii_of_string b.
Proof. induction a as [|c a IH]; simpl; congruence. Qed.

Lemma drop_while_blank p k :
  has_content p = false ->
  drop_while is_space (list_ascii_of_string p ++ k) = drop_while is_space k.
Proof.
  induction p as [|c p IH]; simpl; [reflexivity|].
  destruct (is_space c); simpl; [exact IH|discriminate].
Qed.

Lemma rstrip_blank p : has_content p = false -> rstrip (list_ascii_of_string p) = [].
Proof.
  induction p as [|c p IH]; simpl; [reflexivity|].
  destruct (is_space c) eqn:E; simpl; [|discriminate].
  intros H. now rewrite (IH H).
Qed.

Lemma rstrip_app_blank k p :
  has_content p = false -> rstrip (k ++ list_ascii_of_string p) = rstrip k.
Proof.
  intros H. induction k as [|c k IH]; simpl; [now apply rstrip_blank|].
  now rewrite IH.
Qed.

Lemma strip_app_blank l p :
  has_content p = false -> strip (l ++ list_ascii_of_string p) = strip l.
Proof.
  intros H. rewrite !strip_rstrip.
  induction l as [|c l IH]; simpl.
  - rewrite <- (app_nil_r (list_ascii_of_string p)), drop_while_blank by assumption.
    reflexivity.
  - destruct (is_space c); [exact IH|].
    exact (rstrip_app_blank (c :: l) p H).
Qed.

Lemma normalize_upcase s :
  normalize s = string_of_list_ascii (strip (list_ascii_of_string (upcase s))).
Proof. unfold normalize. now rewrite list_ascii_of_upcase, strip_map. Qed.

End NormalizerMore.

(** X5.  [toUpperTrim] is idempotent: what it returns is left as it is by a
    second call. *)
Theorem toUpperTrim_idempotent (s : string) :
  toUpperTrim (toUpperTrim s) = toUpperTrim s.
Proof. apply toUpperTrim_idem. Qed.

(** X6.  [toUpperTrim] does not see whitespace around a text: putting
    characters of the set space, tab, carriage return, newline before and
    after [s] does not change the result. *)
Theorem toUpperTrim_padding (before s after : string) :
  has_content before = false -> has_content after = false ->
  toUpperTrim (before ++ s ++ after) = toUpperTrim s.
Proof.
  intros Hb Ha. rewrite !toUpperTrim_normalize. unfold NormalizeSpec.normalize.
  rewrite !list_ascii_of_append. do 2 f_equal.
  rewrite app_assoc, (strip_app_blank _ after Ha), !strip_rstrip.
  now rewrite (drop_while_blank before _ Hb).
Qed.

Lemma toUpperTrim_padding_witness :
  toUpperTrim ("  " ++ "math201" ++ String "009" (String "013" " "))
  = toUpperTrim "math201".
Proof. apply toUpperTrim_padding; reflexivity. Defined.

(** X7.  [toUpperTrim] does not see the case of ASCII letters: two texts
    that become equal when every character goes through [toupper] have the
    same result. *)
Theorem toUpperTrim_ignores_case (s1 s2 : string) :
  upcase s1 = upcase s2 -> toUpperTrim s1 = toUpperTrim s2.
Proof.
  intros H. rewrite !toUpperTrim_normalize, !normalize_upcase. now rewrite H.
Qed.

Lemma toUpperTrim_ignores_case_witness :
  toUpperTrim " csci101" = toUpperTrim " CsCi101".
Proof. apply toUpperTrim_ignores_case. reflexivity. Defined.

(** X8.  [toUpperTrim] returns the empty text exactly for the texts made of
    whitespace only (the empty text among them). *)
Theorem toUpperTrim_empty_iff (s : string) :
  toUpperTrim s = EmptyString <-> has_content s = false.
Proof.
  split.
  - intros H. destruct (has_content s) eqn:E; [|reflexivity].
    now apply toUpperTrim_content in E.
  - apply toUpperTrim_blank.
Qed.

Lemma toUpperTrim_empty_iff_witness :
  has_content (String "009" " ") = false.
Proof. apply (proj1 (toUpperTrim_empty_iff (String "009" " "))). reflexivity. Defined.

(** ** The loader *)

Section LoaderMore.

Local Open Scope list_scope.

Lemma fold_load_line_records ls : forall bst warned,
  fst (fold_left (LoaderSpec.load_line LoaderSpec.fields_read) ls (bst, warned))
  = insertAll bst
      (map (fun line => LoaderSpec.course_of (LoaderSpec.fields_read line))
           (filter accepted ls)).
Proof.
  induction ls as [|line ls IH]; intros bst warned; [reflexivity|].
  cbn [fold_left filter]. unfold LoaderSpec.load_line at 2, accepted at 1.
  destruct (line =? EmptyString)%string; cbn [negb andb fst snd]; [apply IH|].
  rewrite Nat.ltb_antisym.
  destruct (2 <=? List.length (LoaderSpec.fields_read line))%nat; cbn [negb]; apply IH.
Qed.

Lemma loadCourses_insertAll fs filename file bst :
  fs filename = Some file ->
  fst (loadCourses fs filename bst) = insertAll bst (records file).
Proof.
  intros Hopen. rewrite (loadCourses_open _ _ _ _ Hopen). cbn [fst].
  apply fold_load_line_records.
Qed.

Lemma extracted_nil delim s : extracted delim s = [] -> s = EmptyString.
Proof.
  destruct s as [|c s]; [reflexivity|]. simpl.
  destruct (Ascii.eqb c delim); [discriminate|].
  destruct (extracted delim s); discriminate.
Qed.

Lemma extracted_free delim s : Forall (free_of delim) (extracted delim s).
Proof.
  induction s as [|c s IH]; simpl; [constructor|].
  destruct (Ascii.eqb c delim) eqn:E.
  - constructor; [reflexivity|assumption].
  - rewrite Ascii.eqb_sym in E.
    destruct (extracted delim s) as [|t ts].
    + constructor; [|constructor]. unfold free_of. simpl. now rewrite E.
    + inversion IH; subst. constructor; [|assumption].
      unfold free_of in *. simpl. now rewrite E.
Qed.

(** A character that a text does not have is in none of its pieces. *)
Lemma extracted_sub delim d s :
  free_of d s -> Forall (free_of d) (extracted delim s).
Proof.
  unfold free_of. induction s as [|c s IH]; simpl; [constructor|].
  intros H. apply orb_false_iff in H as [Hc Hs]. specialize (IH Hs).
  destruct (Ascii.eqb c delim).
  - constructor; [reflexivity|assumption].
  - destruct (extracted delim s) as [|t ts].
    + constructor; [|constructor]. simpl. now rewrite Hc.
    + inversion IH; subst. constructor; [|assumption]. simpl. now rewrite Hc.
Qed.

Lemma split_free delim s : Forall (free_of delim) (LoaderSpec.split delim s).
Proof.
  induction s as [|c s IH]; simpl; [repeat constructor|].
  destruct (Ascii.eqb c delim) eqn:E.
  - constructor; [reflexivity|assumption].
  - rewrite Ascii.eqb_sym in E.
    destruct (LoaderSpec.split delim s) as [|t ts].
    + constructor; [|constructor]. unfold free_of. simpl. now rewrite E.
    + inversion IH; subst. constructor; [|assumption].
      unfold free_of in *. simpl. now rewrite E.
Qed.

Lemma concat_String sep c t ts :
  String.concat sep (String c t :: ts) = String c (String.concat sep (t :: ts)).
Proof. destruct ts; reflexivity. Qed.

(** The tokens joined by the delimiter are the text, but for one delimiter
    at its end. *)
Lemma extracted_join delim s :
  s = (String.concat (String delim EmptyString) (extracted delim s)
       ++ if ends_with delim s then String delim EmptyString else EmptyString)%string.
Proof.
  induction s as [|c s IH]; [reflexivity|].
  cbn [extracted ends_with].
  destruct (Ascii.eqb c delim) eqn:E.
  - apply Ascii.eqb_eq in E. subst c.
    destruct s as [|d s]; [reflexivity|].
    destruct (extracted delim (String d s)) as [|t ts] eqn:Et.
    + apply extracted_nil in Et. discriminate.
    + change (String.concat (String delim EmptyString) (EmptyString :: t :: ts))
        with (String delim (String.concat (String delim EmptyString) (t :: ts))).
      cbn [append]. f_equal. exact IH.
  - destruct s as [|d s]; [reflexivity|].
    destruct (extracted delim (String d s)) as [|t ts] eqn:Et.
    + apply extracted_nil in Et. discriminate.
    + rewrite concat_String. cbn [append]. f_equal. exact IH.
Qed.

Lemma nth_free (d : ascii) (l : list string) n :
  Forall (free_of d) l -> free_of d (nth n l EmptyString).
Proof.
  intros H. revert n. induction H as [|t l Ht _ IH]; intros [|n]; simpl;
    try reflexivity; auto.
Qed.

End LoaderMore.

(** X9.  The tokens that the loop of [getline] on [','] cuts a line into
    have no comma, and joined by commas they give the line back, but for a
    comma at the very end of the line, which leaves no trace. *)
Theorem splitLoop_tokens (line : string) :
  Forall (free_of ",") (splitLoop line [])
  /\ line = String.concat "," (splitLoop line [])
            ++ (if ends_with "," line then "," else EmptyString).
Proof.
  rewrite splitLoop_extracted. cbn [app]. split.
  - apply extracted_free.
  - apply (extracted_join "," line).
Qed.

(** X10.  A load inserts the records of the file, in the order of the file,
    into the catalog as it is: the courses that the catalog holds are
    neither removed nor replaced. *)
Theorem loadCourses_inserts_records
  (fs : FileSystem) (filename file : string) (bst : CourseBST) :
  fs filename = Some file ->
  fst (loadCourses fs filename bst) = insertAll bst (records file)
  /\ Permutation (enumerate bst ++ records file)
       (enumerate (fst (loadCourses fs filename bst))).
Proof.
  intros Hopen. rewrite (loadCourses_insertAll _ _ _ _ Hopen).
  split; [reflexivity|apply insertAll_perm].
Qed.

Lemma loadCourses_inserts_records_witness :
  fst (loadCourses (fun _ => Some sampleFile) "courses.csv" (insert newBST firstRecord))
  = insertAll (insert newBST firstRecord) (records sampleFile).
Proof.
  apply (loadCourses_inserts_records (fun _ => Some sampleFile) "courses.csv" sampleFile).
  reflexivity.
Defined.

(** X11.  Loading the same file a second time changes the result of no
    [search], and puts every record of the file into the enumeration once
    more. *)
Theorem reload_duplicates
  (fs : FileSystem) (filename file : string) (bst : CourseBST) :
  fs filename = Some file ->
  let once := fst (loadCourses fs filename bst) in
  let twice := fst (loadCourses fs filename once) in
  (forall k, search twice k = search once k)
  /\ Permutation (enumerate once ++ records file) (enumerate twice).
Proof.
  intros Hopen once twice. subst once twice.
  rewrite !(loadCourses_insertAll _ _ _ _ Hopen). split.
  - intros k. rewrite (insertAll_search (records file) k (insertAll bst (records file))).
    destruct (search (insertAll bst (records file)) k) eqn:E; [reflexivity|].
    rewrite insertAll_search in E. now destruct (search bst k).
  - apply insertAll_perm.
Qed.

Lemma reload_duplicates_witness :
  search (fst (loadCourses (fun _ => Some sampleFile) "courses.csv"
                 (fst (loadCourses (fun _ => Some sampleFile) "courses.csv" newBST))))
    "CSCI100"
  = search (fst (loadCourses (fun _ => Some sampleFile) "courses.csv" newBST)) "CSCI100".
Proof.
  apply (proj1 (reload_duplicates (fun _ => Some sampleFile) "courses.csv" sampleFile
                  newBST eq_refl)).
Defined.

(** X12.  Load, then look up: for every line that the loader accepts and
    every query with the normal form of the line's field 0, [search] on the
    normalized query finds a course with that number in the loaded
    catalog. *)
Theorem loaded_course_found
  (fs : FileSystem) (filename file : string) (bst : CourseBST) (line q : string) :
  fs filename = Some file ->
  In line (LoaderSpec.lines file) ->
  accepted line = true ->
  toUpperTrim q = toUpperTrim (nth 0 (LoaderSpec.fields_read line) EmptyString) ->
  exists c,
    search (fst (loadCourses fs filename bst)) (toUpperTrim q) = Some c
    /\ courseNumber c = toUpperTrim q.
Proof.
  intros Hopen Hin Hacc Hq.
  rewrite (loadCourses_insertAll _ _ _ _ Hopen), insertAll_search.
  destruct (search bst (toUpperTrim q)) as [x|] eqn:E.
  - exists x. split; [reflexivity|]. now apply searchNode_sound in E.
  - destruct (find (has_number (toUpperTrim q)) (records file)) as [y|] eqn:F.
    + exists y. split; [reflexivity|].
      apply find_some in F as [_ F]. now apply String.eqb_eq in F.
    + exfalso.
      assert (In (LoaderSpec.course_of (LoaderSpec.fields_read line)) (records file)) as Hrec.
      { unfold records.
        apply (in_map (fun l => LoaderSpec.course_of (LoaderSpec.fields_read l))).
        apply filter_In. now split. }
      apply (find_none _ _ F) in Hrec. unfold has_number in Hrec.
      cbn [LoaderSpec.course_of courseNumber] in Hrec.
      rewrite <- toUpperTrim_normalize, <- Hq, String.eqb_refl in Hrec. discriminate.
Qed.

Lemma loaded_course_found_witness :
  exists c,
    search (fst (loadCourses (fun _ => Some sampleFile) "courses.csv" newBST))
      (toUpperTrim "CSci300  ") = Some c
    /\ courseNumber c = toUpperTrim "CSci300  ".
Proof.
  apply (loaded_course_found (fun _ => Some sampleFile) "courses.csv" sampleFile newBST
           " csci300 ,Intro to  Algorithms, csci200,math201 ").
  - reflexivity.
  - simpl. auto 10.
  - reflexivity.
  - reflexivity.
Defined.

(** X13.  The prerequisites of the catalog stay normalized through a load:
    if every prerequisite of every course is a fixed point of [toUpperTrim]
    before, so it is after. *)
Theorem loaded_prerequisites_normalized
  (fs : FileSystem) (filename : string) (bst : CourseBST) :
  Forall (fun c => Forall normalized (prerequisites c)) (enumerate bst) ->
  Forall (fun c => Forall normalized (prerequisites c))
         (enumerate (fst (loadCourses fs filename bst))).
Proof.
  intros Hbst. destruct (fs filename) as [file|] eqn:Hopen.
  - rewrite (loadCourses_open _ _ _ _ Hopen). cbn [fst].
    apply load_invariant; [exact Hbst|].
    intros line _ _ _. cbn [LoaderSpec.course_of prerequisites].
    apply Forall_forall. intros p Hp. apply in_map_iff in Hp as (t & <- & _).
    rewrite <- toUpperTrim_normalize. apply toUpperTrim_normalized.
  - unfold loadCourses. now rewrite Hopen.
Qed.

Lemma loaded_prerequisites_normalized_witness :
  Forall (fun c => Forall normalized (prerequisites c))
         (enumerate (fst (loadCourses (fun _ => Some sampleFile) "courses.csv" newBST))).
Proof. apply loaded_prerequisites_normalized. constructor. Defined.

(** X14.  Titles are stored as the file has them, which leaves two
    characters that no title of a loaded course has: the comma and the
    newline.  The property is kept by a load. *)
Theorem loaded_titles_clean
  (fs : FileSystem) (filename : string) (bst : CourseBST) :
  Forall (fun c => free_of "," (courseName c) /\ free_of "010" (courseName c))
         (enumerate bst) ->
  Forall (fun c => free_of "," (courseName c) /\ free_of "010" (courseName c))
         (enumerate (fst (loadCourses fs filename bst))).
Proof.
  intros Hbst. destruct (fs filename) as [file|] eqn:Hopen.
  - rewrite (loadCourses_open _ _ _ _ Hopen). cbn [fst].
    apply load_invariant; [exact Hbst|].
    intros line Hin _ _. cbn [LoaderSpec.course_of courseName].
    unfold LoaderSpec.fields_read, LoaderSpec.fields.
    rewrite <- extracted_split. split; apply nth_free.
    + apply extracted_free.
    + apply extracted_sub.
      pose proof (split_free "010" file) as Hfree.
      rewrite Forall_forall in Hfree. now apply Hfree.
  - unfold loadCourses. now rewrite Hopen.
Qed.

Lemma loaded_titles_clean_witness :
  Forall (fun c => free_of "," (courseName c) /\ free_of "010" (courseName c))
         (enumerate (fst (loadCourses (fun _ => Some sampleFile) "courses.csv" newBST))).
Proof. apply loaded_titles_clean. constructor. Defined.

(** ** The detail printer and the menu *)

Section MenuMore.

(** What [printCourseInfo] writes and leaves, whether [cin] has a line or
    is at its end. *)
Lemma printCourseInfo_line bst cin :
  printCourseInfo bst cin
  = (prompt ++ DetailSpec.render bst (fst (Std.read_until "010" cin)),
     snd (Std.read_until "010" cin)).
Proof.
  unfold printCourseInfo.
  assert (match Std.getline cin "010" with
          | Some (userInput, cin') => (userInput, cin')
          | None => (EmptyString, cin)
          end = Std.read_until "010" cin) as Hread.
  { destruct cin as [|c cin]; [reflexivity|]. unfold Std.getline.
    now destruct (Std.read_until "010" (String c cin)). }
  rewrite Hread. destruct (Std.read_until "010" cin) as [userInput cin'].
  cbn [fst snd]. unfold DetailSpec.render. rewrite <- toUpperTrim_normalize.
  destruct (search bst (toUpperTrim userInput)) as [course|]; [|reflexivity].
  unfold DetailSpec.prerequisites_line.
  destruct (prerequisites course) as [|p ps].
  - f_equal. now rewrite !append_assoc.
  - rewrite printPrereqs_first. f_equal. now rewrite !append_assoc.
Qed.

Lemma render_normal_form bst q1 q2 :
  toUpperTrim q1 = toUpperTrim q2 -> DetailSpec.render bst q1 = DetailSpec.render bst q2.
Proof.
  intros H. unfold DetailSpec.render. now rewrite <- !toUpperTrim_normalize, H.
Qed.

Lemma substring_all s : substring 0 (String.length s) s = s.
Proof. induction s as [|c s IH]; simpl; congruence. Qed.

Lemma substring_split s : forall k,
  k <= String.length s ->
  s = substring 0 k s ++ substring k (String.length s - k) s.
Proof.
  induction s as [|c s IH]; intros [|k] Hk; simpl in *; try reflexivity; try lia.
  - now rewrite substring_all.
  - rewrite <- IH by lia. reflexivity.
Qed.

(** The names that STEP 1 and STEP 2 of [case 1] accept, by their form in
    capitals. *)
Lemma stripCsv_accepts u :
  (stripCsv u =? correctBaseCaps) = true
  <-> u = correctBaseCaps \/ u = correctBaseCaps ++ ".CSV".
Proof.
  split.
  - unfold stripCsv, substr_from, Std.substr.
    destruct (4 <=? String.length u)%nat eqn:Hlen; cbn [andb].
    + destruct (String.eqb_spec
                  (substring (String.length u - 4)
                     (String.length u - (String.length u - 4)) u) ".CSV") as [Hext|_].
      * intros H. apply String.eqb_eq in H. right.
        apply Nat.leb_le in Hlen.
        rewrite (substring_split u (String.length u - 4)) by lia.
        now rewrite H, Hext.
      * intros H. apply String.eqb_eq in H. now left.
    + intros H. apply String.eqb_eq in H. now left.
  - intros [-> | ->]; reflexivity.
Qed.

End MenuMore.

(** X15.  [printCourseInfo] sees its query through [toUpperTrim] only: two
    inputs whose first lines have the same normal form (an input at its end
    counts as an empty line) make it write the same text. *)
Theorem printCourseInfo_ignores_form (bst : CourseBST) (cin1 cin2 : string) :
  toUpperTrim (fst (Std.read_until "010" cin1))
  = toUpperTrim (fst (Std.read_until "010" cin2)) ->
  fst (printCourseInfo bst cin1) = fst (printCourseInfo bst cin2).
Proof.
  intros H. rewrite !printCourseInfo_line. cbn [fst].
  f_equal. now apply render_normal_form.
Qed.

Lemma printCourseInfo_ignores_form_witness :
  fst (printCourseInfo (insert newBST firstRecord) (" csci100 " ++ Std.endl ++ "3"))
  = fst (printCourseInfo (insert newBST firstRecord) "CSCI100").
Proof. apply printCourseInfo_ignores_form. reflexivity. Defined.

(** X16.  [case 1] of the menu accepts a name exactly when its capitals
    are the expected base name, with or without [".CSV"] after it.  For an
    accepted name the file that is loaded is the one fixed name, whatever
    was typed, and [loaded] is set; for any other name the state stays as it
    is and the two lines of the error are written. *)
Theorem loadByName_accepts (fs : FileSystem) (inputName : string) (st : MainState) :
  (upcase inputName = correctBaseCaps \/ upcase inputName = correctBaseCaps ++ ".CSV" ->
   loadByName fs inputName st
   = (mkMain (fst (loadCourses fs "CS 300 ABCU_Advising_Program_Input.csv" (bst_of st))) true,
      "Using file: CS 300 ABCU_Advising_Program_Input.csv" ++ Std.endl
      ++ snd (loadCourses fs "CS 300 ABCU_Advising_Program_Input.csv" (bst_of st))))
  /\ (upcase inputName <> correctBaseCaps ->
      upcase inputName <> correctBaseCaps ++ ".CSV" ->
      loadByName fs inputName st
      = (st,
         "ERROR: The file name does not match " ++ dquote
         ++ "CS 300 ABCU_Advising_Program_Input" ++ dquote ++ " (ignoring case)."
         ++ Std.endl ++ "Please re-check your spelling and try again." ++ Std.endl)).
Proof.
  unfold loadByName. split.
  - intros H. apply stripCsv_accepts in H. rewrite H.
    change (correctBase ++ ".csv") with "CS 300 ABCU_Advising_Program_Input.csv".
    now destruct (loadCourses fs "CS 300 ABCU_Advising_Program_Input.csv" (bst_of st)).
  - intros H1 H2.
    destruct (stripCsv (upcase inputName) =? correctBaseCaps) eqn:E; [|reflexivity].
    apply stripCsv_accepts in E. tauto.
Qed.

Lemma loadByName_accepts_witness :
  fst (loadByName (fun _ => Some sampleFile) "cs 300 abcu_advising_program_input.Csv"
         initialMain)
  = mkMain (fst (loadCourses (fun _ => Some sampleFile)
                   "CS 300 ABCU_Advising_Program_Input.csv" newBST)) true
  /\ fst (loadByName (fun _ => Some sampleFile) " CS 300 ABCU_Advising_Program_Input"
            initialMain)
     = initialMain.
Proof.
  split.
  - rewrite (proj1 (loadByName_accepts (fun _ => Some sampleFile)
                      "cs 300 abcu_advising_program_input.Csv" initialMain));
      [reflexivity|right; reflexivity].
  - rewrite (proj2 (loadByName_accepts (fun _ => Some sampleFile)
                      " CS 300 ABCU_Advising_Program_Input" initialMain));
      [reflexivity|discriminate|discriminate].
Defined.

(** X17.  [case 1] sets [loaded] for an accepted name even when the file
    cannot be opened; the catalog is then as it was, and [case 2] writes
    the heading and the listing of that catalog (nothing, for the empty
    one), not the request to load first. *)
Theorem loaded_without_file (fs : FileSystem) (inputName : string) (st : MainState) :
  upcase inputName = correctBaseCaps \/ upcase inputName = correctBaseCaps ++ ".CSV" ->
  fs "CS 300 ABCU_Advising_Program_Input.csv" = None ->
  fst (loadByName fs inputName st) = mkMain (bst_of st) true
  /\ mainCase2 (fst (loadByName fs inputName st))
     = "Here is the course schedule:" ++ Std.endl ++ Std.endl
       ++ printAll (bst_of st) ++ Std.endl.
Proof.
  intros Hname Hmissing. unfold loadByName.
  apply stripCsv_accepts in Hname. rewrite Hname.
  change (correctBase ++ ".csv") with "CS 300 ABCU_Advising_Program_Input.csv".
  unfold loadCourses. rewrite Hmissing. split; reflexivity.
Qed.

Lemma loaded_without_file_witness :
  mainCase2 (fst (loadByName (fun _ => None) "CS 300 ABCU_Advising_Program_Input" initialMain))
  = "Here is the course schedule:" ++ Std.endl ++ Std.endl ++ Std.endl.
Proof.
  apply (proj2 (loaded_without_file (fun _ => None) "CS 300 ABCU_Advising_Program_Input"
                  initialMain (or_introl eq_refl) eq_refl)).
Defined.

(** ** The states that the menu reaches *)

Lemma loadByName_state fs inputName st :
  fst (loadByName fs inputName st) = st
  \/ fst (loadByName fs inputName st)
     = mkMain (fst (loadCourses fs (correctBase ++ ".csv") (bst_of st))) true.
Proof.
  unfold loadByName.
  destruct (stripCsv (upcase inputName) =? correctBaseCaps); [right|now left].
  now destruct (loadCourses fs (correctBase ++ ".csv") (bst_of st)).
Qed.

Lemma mainCase1_state fs st cin :
  fst (fst (mainCase1 fs st cin)) = st
  \/ exists filename,
       fst (fst (mainCase1 fs st cin))
       = mkMain (fst (loadCourses fs filename (bst_of st))) true.
Proof.
  unfold mainCase1.
  destruct (match Std.getline cin "010" with
            | Some (inputName, cin') => (inputName, cin')
            | None => (EmptyString, cin)
            end) as [inputName cin'].
  destruct (loadByName_state fs inputName st) as [H|H];
    destruct (loadByName fs inputName st) as [st' cout]; cbn [fst] in *.
  - now left.
  - right. now exists (correctBase ++ ".csv").
Qed.

(** X18.  In every state that the menu reaches the catalog is an ordered
    search tree, every number and every prerequisite in it is a fixed point
    of [toUpperTrim], and as long as [loaded] is false the catalog is the
    empty one. *)
Theorem menu_invariant (st : MainState) :
  reachable st ->
  ordered (root (bst_of st))
  /\ Forall (fun c => normalized (courseNumber c)
                      /\ Forall normalized (prerequisites c))
            (enumerate (bst_of st))
  /\ (loaded st = false -> bst_of st = newBST).
Proof.
  induction 1 as [|fs st cin Hreach (Hord & Hnorm & Hempty)].
  - split; [exact I|]. split; [constructor|reflexivity].
  - destruct (mainCase1_state fs st cin) as [-> | [filename ->]].
    + repeat split; assumption.
    + cbn [bst_of loaded]. repeat split.
      * now apply loadCourses_ordered.
      * apply loadCourses_keeps; [|exact Hnorm].
        intros tokens. cbn [LoaderSpec.course_of courseNumber prerequisites]. split.
        -- rewrite <- toUpperTrim_normalize. apply toUpperTrim_normalized.
        -- apply Forall_forall. intros p Hp. apply in_map_iff in Hp as (t & <- & _).
           rewrite <- toUpperTrim_normalize. apply toUpperTrim_normalized.
      * discriminate.
Qed.

Lemma menu_invariant_witness :
  ordered (root (bst_of (fst (fst (mainCase1 (fun _ => Some sampleFile) initialMain
                                     "cs 300 abcu_advising_program_input.csv"))))).
Proof.
  apply (menu_invariant _ (reach_case1 (fun _ => Some sampleFile) initialMain
                             "cs 300 abcu_advising_program_input.csv" reach_initial)).
Defined.

(** X19.  Before a file name has been accepted the menu hides nothing: in
    a reachable state where [loaded] is false the catalog has no course,
    [case 2] writes its request to load and nothing else, and [case 3]
    writes its request without reading a line of [cin]. *)
Theorem not_loaded_gate (st : MainState) (cin : string) :
  reachable st -> loaded st = false ->
  enumerate (bst_of st) = []
  /\ mainCase2 st = "Please load courses before printing the list." ++ Std.endl
  /\ mainCase3 st cin
     = ("Please load courses before searching for a course." ++ Std.endl, cin).
Proof.
  intros Hreach Hnot. unfold mainCase2, mainCase3. rewrite Hnot. cbn [negb].
  repeat split.
  clear cin. induction Hreach as [|fs st cin Hreach IH]; [reflexivity|].
  destruct (mainCase1_state fs st cin) as [E | [filename E]]; rewrite E in *.
  - now apply IH.
  - discriminate.
Qed.

Lemma not_loaded_gate_witness :
  mainCase3 (fst (fst (mainCase1 (fun _ => Some sampleFile) initialMain "courses.csv")))
            "CSCI100"
  = ("Please load courses before searching for a course." ++ Std.endl, "CSCI100").
Proof.
  apply (not_loaded_gate _ "CSCI100"
           (reach_case1 (fun _ => Some sampleFile) initialMain "courses.csv" reach_initial)
           eq_refl).
Defined.

(** ** The shape of normalized texts and of the tree *)

Section ShapeMore.

Import NormalizeSpec.
Local Open Scope list_scope.

Lemma toupper_not_lower c : is_lower c = false -> Std.toupper c = c.
Proof. destruct c as [[] [] [] [] [] [] [] []]; (reflexivity || discriminate). Qed.

Lemma upcase_no_lower s : has_lower s = false -> upcase s = s.
Proof.
  induction s as [|c s IH]; simpl; [reflexivity|].
  intros H. apply orb_false_iff in H as [Hc Hs].
  now rewrite (toupper_not_lower c Hc), (IH Hs).
Qed.

Lemma rstrip_no_space s :
  ends_with_space s = false -> rstrip (list_ascii_of_string s) = list_ascii_of_string s.
Proof.
  induction s as [|c s IH]; [reflexivity|].
  destruct s as [|d s].
  - simpl. now intros ->.
  - intros H. cbn [list_ascii_of_string rstrip] in *.
    change (ends_with_space (String c (String d s))) with (ends_with_space (String d s)) in H.
    rewrite (IH H). reflexivity.
Qed.

Lemma shape_normalized s :
  has_lower s = false -> starts_with_space s = false -> ends_with_space s = false ->
  normalized s.
Proof.
  intros Hl Hs He. unfold normalized.
  rewrite toUpperTrim_normalize, normalize_upcase, (upcase_no_lower s Hl).
  rewrite strip_rstrip.
  assert (drop_while is_space (list_ascii_of_string s) = list_ascii_of_string s) as ->.
  { destruct s as [|c s]; [reflexivity|]. simpl in Hs |- *. now rewrite Hs. }
  rewrite (rstrip_no_space s He). apply string_of_list_ascii_of_string.
Qed.

(** Inserting a course that is not below any course of a right spine
    extends the spine by one node. *)
Lemma addNode_spine node c :
  right_spine node ->
  Forall (fun x => str_le (courseNumber x) (courseNumber c)) (inOrderCourses node) ->
  right_spine (addNode node c) /\ height (addNode node c) = S (height node).
Proof.
  induction node as [|d l _ r IHr]; simpl; [now repeat split|].
  intros [-> Hr] Hall. simpl in Hall. inversion Hall as [|? ? Hd Hrest]; subst.
  unfold str_le in Hd. rewrite Hd. simpl.
  destruct (IHr Hr Hrest) as [Hs Hh]. rewrite Hh. now repeat split.
Qed.

Lemma insertAll_spine courses : forall bst,
  right_spine (root bst) ->
  Forall (fun x => Forall (fun c => str_le (courseNumber x) (courseNumber c)) courses)
         (enumerate bst) ->
  StronglySorted (fun a b => str_le (courseNumber a) (courseNumber b)) courses ->
  right_spine (root (insertAll bst courses))
  /\ height (root (insertAll bst courses)) = height (root bst) + List.length courses.
Proof.
  induction courses as [|c courses IH]; intros bst Hs Hall Hsorted.
  - simpl. split; [assumption|lia].
  - inversion Hsorted as [|? ? Hsorted' Hc]; subst.
    destruct (addNode_spine (root bst) c Hs) as [Hs' Hh'].
    { eapply Forall_impl; [|exact Hall]. intros x Hx. now inversion Hx. }
    cbn [insertAll fold_left].
    destruct (IH (insert bst c)) as [Hs'' Hh'']; trivial.
    + unfold enumerate, insert. cbn [root].
      eapply Permutation_Forall; [apply addNode_perm|].
      constructor; [exact Hc|].
      eapply Forall_impl; [|exact Hall]. intros x Hx. now inversion Hx.
    + split; [exact Hs''|].
      unfold insertAll in Hh''. rewrite Hh''. unfold insert. cbn [root].
      rewrite Hh'. simpl. lia.
Qed.

End ShapeMore.

(** X20.  The fixed points of [toUpperTrim] are the texts with no
    lowercase ASCII letter and no whitespace at either end; every result of
    [toUpperTrim] is one. *)
Theorem normalized_iff_shape (s : string) :
  (toUpperTrim s = s
   <-> has_lower s = false /\ starts_with_space s = false /\ ends_with_space s = false)
  /\ has_lower (toUpperTrim s) = false
  /\ starts_with_space (toUpperTrim s) = false
  /\ ends_with_space (toUpperTrim s) = false.
Proof.
  split.
  - split.
    + apply normalized_shape.
    + intros (Hl & Hs & He). now apply shape_normalized.
  - apply normalized_shape, toUpperTrim_normalized.
Qed.

Lemma normalized_iff_shape_witness : toUpperTrim "CS 300" = "CS 300".
Proof. apply (proj1 (normalized_iff_shape "CS 300")). repeat split. Defined.

(** X21.  The tree is never rebalanced: courses inserted into an empty
    catalog in non-decreasing order of number make a tree without a left
    child anywhere, whose height is the number of courses. *)
Theorem ascending_input_degenerates (courses : list Course) :
  StronglySorted (fun a b => str_le (courseNumber a) (courseNumber b)) courses ->
  right_spine (root (insertAll newBST courses))
  /\ height (root (insertAll newBST courses)) = List.length courses.
Proof.
  intros Hsorted.
  destruct (insertAll_spine courses newBST I (Forall_nil _) Hsorted) as [Hs Hh].
  split; [exact Hs|exact Hh].
Qed.

Lemma ascending_input_degenerates_witness :
  height (root (insertAll newBST
                  [mkCourse "CSCI100" "Introduction to Computer Science" [];
                   mkCourse "CSCI101" "Introduction to Programming in C++" ["CSCI100"];
                   mkCourse "MATH201" "Discrete Mathematics" []]))
  = 3.
Proof.
  apply (proj2 (ascending_input_degenerates
                  [mkCourse "CSCI100" "Introduction to Computer Science" [];
                   mkCourse "CSCI101" "Introduction to Programming in C++" ["CSCI100"];
                   mkCourse "MATH201" "Discrete Mathematics" []]
                  ltac:(repeat constructor))).
Defined.
